(** * Session lifecycle of the user-account backend

    A shallow embedding of [src/controllers/user.controller.js]: the token
    generator [generateAccessAndRefereshTokens] and the three session
    handlers [loginuser], [logOutUser] and [refreshAccessToken], over an
    explicit document store.  Handlers are written in a state-and-exception
    monad: the store survives a thrown error, as it does in the source, where
    no transaction wraps a handler. *)

From Stdlib Require Import String Ascii List Bool Arith ZArith Lia.
Import ListNotations.
Local Open Scope string_scope.
Local Open Scope Z_scope.

Set Implicit Arguments.

(** ** JavaScript values *)

(** The fragment of JavaScript values that the handlers pass around:
    [undefined], [null], booleans, numbers, strings and plain objects.  An
    object is an association list, in insertion order. *)
#[warnings="-register-all"]
Inductive JsVal : Type :=
| JUndefined
| JNull
| JBool (b : bool)
| JNum (n : Z)
| JStr (s : string)
| JObj (fields : list (string * JsVal)).

Definition JsObject := list (string * JsVal).

(** [obj.key]: the value stored under [key], [undefined] when the object has
    no such property.  Destructuring [const { a, b } = obj] reads [obj.a] and
    [obj.b] this way. *)
Fixpoint prop (key : string) (obj : JsObject) : JsVal :=
  match obj with
  | [] => JUndefined
  | (k, v) :: rest => if String.eqb k key then v else prop key rest
  end.

Fixpoint has_key (key : string) (obj : JsObject) : bool :=
  match obj with
  | [] => false
  | (k, _) :: rest => String.eqb k key || has_key key rest
  end.

(** A request field that is either a string or missing. *)
Definition of_field (f : option string) : JsVal :=
  match f with
  | Some s => JStr s
  | None => JUndefined
  end.

(** Truthiness of a string-or-missing field: [undefined] and the empty string
    are falsy. *)
Definition truthy (f : option string) : bool :=
  match f with
  | Some s => negb (String.eqb s "")
  | None => false
  end.

(** [a || b] on string-or-missing fields. *)
Definition js_or (a b : option string) : option string :=
  if truthy a then a else b.

(** [a !== b] where [a] is a string and [b] a string-or-missing field:
    strict inequality, an exact comparison of the two strings. *)
Definition strict_neq (a : string) (b : option string) : bool :=
  match b with
  | Some s => negb (String.eqb a s)
  | None => true
  end.

(** ** Errors *)

(** Modelled from the spec: [utils/ApiError.js] is not part of the sources;
    section 7 of the specification describes an error as a status code and a
    message.  [LibError] stands for an [Error] thrown by a library (the
    token library, the password hash, the database driver): it has a name and
    a message but no status code. *)
Inductive JsError : Type :=
| ApiError (statusCode : Z) (message : string)
| LibError (name : string) (message : string).

(** [error?.message] *)
Definition error_message (e : JsError) : string :=
  match e with
  | ApiError _ m => m
  | LibError _ m => m
  end.

Definition error_status (e : JsError) : option Z :=
  match e with
  | ApiError c _ => Some c
  | LibError _ _ => None
  end.

(** [s || d] on strings. *)
Definition str_or (s d : string) : string :=
  if String.eqb s "" then d else s.

Inductive Result (A : Type) : Type :=
| Ok (a : A)
| Throw (e : JsError).
Arguments Throw {A} e.

(** ** Users and the store *)

Definition UserId := string.

(** Modelled from the spec: [models/user.model.js] is not part of the
    sources.  The fields are those of the persisted layout of section 6, under
    the names the controller uses ([User.create] in [registerUser], the
    [select] of [loginuser], [user.refreshToken]).  [refreshToken] is the one
    optional field the session handlers touch; [None] is an unset field. *)
Record User : Type := mkUser {
  _id : UserId;
  username : string;
  email : string;
  fullName : string;
  avatar : string;
  coverImage : string;
  password : string;
  refreshToken : option string
}.

Definition set_refreshToken (u : User) (t : option string) : User :=
  mkUser (_id u) (username u) (email u) (fullName u) (avatar u)
         (coverImage u) (password u) t.

(** The paths of the schema. *)
Definition schema_paths : list string :=
  ["_id"; "username"; "email"; "fullName"; "avatar"; "coverImage";
   "password"; "refreshToken"].

(** The collection, in natural order. *)
Definition Store := list User.

(** [User.findById(id)]: the document with that [_id], or [null].
    [findById(undefined)] is [null]. *)
Fixpoint findById (st : Store) (id : option UserId) : option User :=
  match id with
  | None => None
  | Some i =>
      match st with
      | [] => None
      | u :: rest => if String.eqb (_id u) i then Some u else findById rest id
      end
  end.

(** One clause [{ field }] of a filter: a missing value matches no document,
    since every document has the field. *)
Definition field_matches (wanted : option string) (actual : string) : bool :=
  match wanted with
  | Some s => String.eqb s actual
  | None => false
  end.

(** [User.findOne({ $or: [{ username }, { email }] })]: the first document, in
    natural order, that satisfies one of the two clauses.  A filter value is
    compared with the stored value as it is given; a schema that rewrites
    filter values before the comparison is not modelled. *)
Fixpoint findOne (st : Store) (uname mail : option string) : option User :=
  match st with
  | [] => None
  | u :: rest =>
      if field_matches uname (username u) || field_matches mail (email u)
      then Some u
      else findOne rest uname mail
  end.

(** The single-document write both [save] and [findByIdAndUpdate] end in:
    the first document with that [_id] is replaced by its image under [f];
    a store without such a document is left as it is. *)
Fixpoint updateOne (st : Store) (id : UserId) (f : User -> User) : Store :=
  match st with
  | [] => []
  | u :: rest =>
      if String.eqb (_id u) id then f u :: rest
      else u :: updateOne rest id f
  end.

(** [user.save()] after [user.refreshToken = t]: the modified path is written
    to the document with the same [_id].  The write carries no condition on
    the value it replaces. *)
Definition save (st : Store) (user : User) : Store :=
  updateOne st (_id user) (fun u => set_refreshToken u (refreshToken user)).

(** ** Collaborators

    What a handler calls but the controller does not define: the token
    library, the methods of the user model, the environment and the database
    driver.  One [Env] describes them for the duration of one handler call
    (the clock moves between calls, so two calls may see two [Env]s). *)

(** The places where the controller awaits the database. *)
Inductive DbCall : Type :=
| GenFindById       (* generateAccessAndRefereshTokens: User.findById *)
| GenSave           (* generateAccessAndRefereshTokens: user.save *)
| LoginFindOne      (* loginuser: User.findOne *)
| LoginFindById     (* loginuser: User.findById(...).select(...) *)
| LogoutUpdate      (* logOutUser: User.findByIdAndUpdate *)
| RefreshFindById.  (* refreshAccessToken: User.findById *)

Record JwtPayload : Type := mkPayload {
  sub_id : option UserId   (* decodedToken?._id *)
}.

Record Env : Type := mkEnv {
  (** [process.env.REFRESH_TOKEN_SECRET] *)
  REFRESH_TOKEN_SECRET : option string;
  (** [jwt.verify(token, secret)]: the decoded payload, or the error the
      library throws (bad signature, malformed, expired). *)
  jwt_verify : string -> option string -> Result JwtPayload;
  (** [user.generateAccessToken()] and [user.generateRefreshToken()] *)
  generateAccessToken : User -> Result string;
  generateRefreshToken : User -> Result string;
  (** [user.isPassWordCorrect(password)]; the argument is what the request
      body holds, possibly [undefined]. *)
  isPassWordCorrect : User -> option string -> Result bool;
  (** The error, if any, with which the database rejects the call made at a
      given place (connection lost, cast error, ...). *)
  db_fault : DbCall -> option JsError;
  (** The effect of an update operator ([$set], [$unset], ...) and of
      setting a schema path to a value, on one document. *)
  update_operator : string -> JsVal -> User -> User;
  cast_set : string -> JsVal -> User -> User
}.

(** ** The handler monad *)

Definition M (A : Type) : Type := Store -> Result A * Store.

Definition ret {A} (a : A) : M A := fun st => (Ok a, st).

Definition throw {A} (e : JsError) : M A := fun st => (Throw e, st).

Definition bind {A B} (m : M A) (k : A -> M B) : M B :=
  fun st =>
    match m st with
    | (Ok a, st') => k a st'
    | (Throw e, st') => (Throw e, st')
    end.

(** [try { m } catch (error) { handler error }] *)
Definition try_catch {A} (m : M A) (handler : JsError -> M A) : M A :=
  fun st =>
    match m st with
    | (Ok a, st') => (Ok a, st')
    | (Throw e, st') => handler e st'
    end.

(** A synchronous call that may throw. *)
Definition call {A} (r : Result A) : M A := fun st => (r, st).

Notation "x <- m ;; k" := (bind m (fun x => k))
  (at level 61, m at next level, right associativity).
Notation "m ;;; k" := (bind m (fun _ => k))
  (at level 61, right associativity).

(** ** Update documents and projections *)

(** A top-level key of an update document that starts with a dollar sign is
    an update operator. *)
Definition is_operator (key : string) : bool :=
  match key with
  | String c _ => Ascii.eqb c "$"%char
  | EmptyString => false
  end.

Definition in_schema (key : string) : bool :=
  existsb (String.eqb key) schema_paths.

(** [text] split at spaces, empty pieces dropped. *)
Fixpoint words_from (current text : string) : list string :=
  match text with
  | EmptyString =>
      if String.eqb current "" then [] else [current]
  | String c rest =>
      if Ascii.eqb c " "%char
      then (if String.eqb current "" then words_from "" rest
            else current :: words_from "" rest)
      else words_from (current ++ String c "") rest
  end.

Definition words (text : string) : list string := words_from "" text.

(** A word of a projection: [-path] excludes [path], anything else includes
    the path it names. *)
Definition excluded_path (word : string) : option string :=
  match word with
  | String c path => if Ascii.eqb c "-"%char then Some path else None
  | EmptyString => None
  end.

Fixpoint exclusions (ws : list string) : list string :=
  match ws with
  | [] => []
  | w :: rest =>
      match excluded_path w with
      | Some p => p :: exclusions rest
      | None => exclusions rest
      end
  end.

Fixpoint inclusions (ws : list string) : list string :=
  match ws with
  | [] => []
  | w :: rest =>
      match excluded_path w with
      | Some _ => inclusions rest
      | None => w :: inclusions rest
      end
  end.

Definition mem (key : string) (keys : list string) : bool :=
  existsb (String.eqb key) keys.

(** The document as the plain object a response serialises; an unset
    [refreshToken] is an absent key.  Only the fields of [User] appear: the
    keys the database library adds for its own bookkeeping are not
    modelled. *)
Definition toObject (u : User) : JsObject :=
  ([("_id", JStr (_id u)); ("username", JStr (username u));
    ("email", JStr (email u)); ("fullName", JStr (fullName u));
    ("avatar", JStr (avatar u)); ("coverImage", JStr (coverImage u));
    ("password", JStr (password u))]
   ++ match refreshToken u with
      | Some t => [("refreshToken", JStr t)]
      | None => []
      end)%list.

(** [query.select(projection)] on the object of a document: a projection
    made of exclusions drops the paths it names; one that names paths keeps
    those and [_id]. *)
Definition select (projection : string) (doc : JsObject) : JsObject :=
  let ws := words projection in
  match inclusions ws with
  | [] => filter (fun kv => negb (mem (fst kv) (exclusions ws))) doc
  | keep => filter (fun kv => mem (fst kv) keep || String.eqb (fst kv) "_id") doc
  end.

(** What [findById(...).select(...)] resolves to: the projected object, or
    [null]. *)
Definition selected (projection : string) (found : option User) : JsVal :=
  match found with
  | Some u => JObj (select projection (toObject u))
  | None => JNull
  end.

(** ** Responses *)

Record Cookie : Type := mkCookie {
  cookie_name : string;
  cookie_value : JsVal;
  cookie_options : option JsObject
}.

(** Modelled from the spec: [utils/ApiResponse.js] is not part of the
    sources; section 6 gives the envelope as status, data and message. *)
Record ApiResponse : Type := mkApiResponse {
  statusCode : Z;
  data : JsVal;
  message : string
}.

Record Response : Type := mkResponse {
  status : Z;
  cookies : list Cookie;
  json : option ApiResponse
}.

(** The response object a handler receives, and the three chained calls. *)
Definition res : Response := mkResponse 200 [] None.

Definition res_status (code : Z) (r : Response) : Response :=
  mkResponse code (cookies r) (json r).

(** [res.cookie(name, value, options)]; with two arguments the options are
    missing. *)
Definition res_cookie (name : string) (value : JsVal)
    (options : option JsObject) (r : Response) : Response :=
  mkResponse (status r) (cookies r ++ [mkCookie name value options])%list
             (json r).

Definition res_json (body : ApiResponse) (r : Response) : Response :=
  mkResponse (status r) (cookies r) (Some body).

(** The value of the first cookie set under [name]. *)
Fixpoint cookie_named (name : string) (cs : list Cookie) : option JsVal :=
  match cs with
  | [] => None
  | c :: rest =>
      if String.eqb (cookie_name c) name then Some (cookie_value c)
      else cookie_named name rest
  end.

(** A field of the [data] object of the body. *)
Definition body_field (key : string) (r : Response) : JsVal :=
  match json r with
  | Some body =>
      match data body with
      | JObj fields => prop key fields
      | _ => JUndefined
      end
  | None => JUndefined
  end.

(** ** Requests *)

Record LoginRequest : Type := mkLoginRequest {
  body_username : option string;
  body_email : option string;
  body_password : option string
}.

(** [req.user] is what the authentication middleware attached. *)
Record LogoutRequest : Type := mkLogoutRequest {
  req_user : User
}.

Record RefreshRequest : Type := mkRefreshRequest {
  cookies_refreshToken : option string;
  body_refreshToken : option string
}.

(** ** The controller

    Modelled from the spec: [utils/asyncHandler.js] is not part of the
    sources.  A handler is taken as the function it wraps: what it returns is
    the reply, and an error it throws is the error the caller is answered
    with (section 7: failures propagate to the caller at once). *)

Section Controller.

Variable env : Env.

(** An awaited database call: rejected with the fault of its place, if
    there is one, and otherwise run on the store in one piece. *)
Definition db {A} (place : DbCall) (op : Store -> A * Store) : M A :=
  fun st =>
    match db_fault env place with
    | Some e => (Throw e, st)
    | None => let (a, st') := op st in (Ok a, st')
    end.

Definition db_findById (place : DbCall) (id : option UserId)
  : M (option User) :=
  db place (fun st => (findById st id, st)).

Definition db_findOne (place : DbCall) (uname mail : option string)
  : M (option User) :=
  db place (fun st => (findOne st uname mail, st)).

Definition db_save (place : DbCall) (user : User) : M unit :=
  db place (fun st => (tt, save st user)).

(** One top-level entry of an update document: an operator is applied; any
    other key is a path to set, and a path the schema does not have is
    dropped. *)
Definition apply_update_entry (u : User) (entry : string * JsVal) : User :=
  let (key, value) := entry in
  if is_operator key then update_operator env key value u
  else if in_schema key then cast_set env key value u
  else u.

Definition apply_update (update : JsObject) (u : User) : User :=
  fold_left apply_update_entry update u.

(** [User.findByIdAndUpdate(id, update, { new: true })]: resolves to the
    document after the update, or to [null]. *)
Definition db_findByIdAndUpdate (place : DbCall) (id : UserId)
    (update : JsObject) : M (option User) :=
  db place (fun st =>
    let st' := updateOne st id (apply_update update) in
    (findById st' (Some id), st')).

Definition token_error : JsError :=
  ApiError 500 "Error generating refresh and access tokens".

Definition generateAccessAndRefereshTokens (userId : UserId) : M JsObject :=
  try_catch
    (user <- db_findById GenFindById (Some userId) ;;
     match user with
     | None => throw (ApiError 404 "User not found")
     | Some user =>
         accessToken <- call (generateAccessToken env user) ;;
         refreshToken <- call (generateRefreshToken env user) ;;
         let user := set_refreshToken user (Some refreshToken) in
         db_save GenSave user ;;;
         ret [("accessToken", JStr accessToken);
              ("refreshToken", JStr refreshToken)]
     end)
    (fun error => throw token_error).

(** The [options] object each handler builds for its cookies. *)
Definition options : JsObject :=
  [("httpOnly", JBool true); ("secure", JBool true)].

(** The [return res.status(200).cookie(...).cookie(...).json(...)] of
    [loginuser]. *)
Definition login_reply (loggedInUser accessToken refreshToken : JsVal)
  : Response :=
  res_json
    (mkApiResponse 200
       (JObj [("user", loggedInUser);
              ("accessToken", accessToken);
              ("refreshToken", refreshToken)])
       "User logged in successfully")
    (res_cookie "refreshToken" refreshToken (Some options)
       (res_cookie "accessToken" accessToken (Some options)
          (res_status 200 res))).

Definition loginuser (req : LoginRequest) : M Response :=
  let username := body_username req in
  let email := body_email req in
  let password := body_password req in
  if negb (truthy username || truthy email)
  then throw (ApiError 400 "Username or email is required")
  else
    user <- db_findOne LoginFindOne username email ;;
    match user with
    | None => throw (ApiError 404 "User does not exist")
    | Some user =>
        isPasswordValid <- call (isPassWordCorrect env user password) ;;
        if negb isPasswordValid
        then throw (ApiError 401 "Invalid user credentials")
        else
          tokens <- generateAccessAndRefereshTokens (_id user) ;;
          let accessToken := prop "accessToken" tokens in
          let refreshToken := prop "refreshToken" tokens in
          found <- db_findById LoginFindById (Some (_id user)) ;;
          let loggedInUser := selected "-password -refreshToken" found in
          ret (login_reply loggedInUser accessToken refreshToken)
    end.

(** The update document of [logOutUser], as written: its one key is
    [set]. *)
Definition logout_update : JsObject :=
  [("set", JObj [("refreshToken", JUndefined)])].

(** The reply of [logOutUser]: each [cookie] call has two arguments, so
    the options object is the value of the cookie. *)
Definition logout_reply : Response :=
  res_json
    (mkApiResponse 200 (JObj []) "User logout successfuly")
    (res_cookie "refreshToken" (JObj options) None
       (res_cookie "accessToken" (JObj options) None
          (res_status 200 res))).

Definition logOutUser (req : LogoutRequest) : M Response :=
  db_findByIdAndUpdate LogoutUpdate (_id (req_user req)) logout_update ;;;
  ret logout_reply.

(** The string a truthy field holds. *)
Definition text_of (f : option string) : string :=
  match f with
  | Some s => s
  | None => ""
  end.

(** What the [catch] of [refreshAccessToken] throws for the error it
    caught; every error raised inside its [try] goes through it. *)
Definition refresh_catch (error : JsError) : JsError :=
  ApiError 401 (str_or (error_message error) "Invalid refresh token").

(** The reply of [refreshAccessToken]. *)
Definition refresh_reply (accessToken newRefreshToken : JsVal) : Response :=
  res_json
    (mkApiResponse 200
       (JObj [("accessToken", accessToken);
              ("refreshToken", newRefreshToken)])
       "Access token refreshed")
    (res_cookie "refreshToken" newRefreshToken (Some options)
       (res_cookie "accessToken" accessToken (Some options)
          (res_status 200 res))).

Definition refreshAccessToken (req : RefreshRequest) : M Response :=
  let incoming := js_or (cookies_refreshToken req) (body_refreshToken req) in
  if negb (truthy incoming)
  then throw (ApiError 401 "Unauthorized request")
  else
    let incomingRefreshToken := text_of incoming in
    try_catch
      (decodedToken <- call (jwt_verify env incomingRefreshToken
                               (REFRESH_TOKEN_SECRET env)) ;;
       user <- db_findById RefreshFindById (sub_id decodedToken) ;;
       match user with
       | None => throw (ApiError 401 "Invalid refresh token")
       | Some user =>
           if strict_neq incomingRefreshToken (refreshToken user)
           then throw (ApiError 401 "Refresh token is expired or used")
           else
             tokens <- generateAccessAndRefereshTokens (_id user) ;;
             let accessToken := prop "accessToken" tokens in
             let newRefreshToken := prop "newRefreshToken" tokens in
             ret (refresh_reply accessToken newRefreshToken)
       end)
      (fun error => throw (refresh_catch error)).

End Controller.

(** ** Refresh as a sequence of turns

    [refreshAccessToken] gives up control at each [await] on the database.
    A [RefreshTask] records how far one call has come: the value each awaited
    call resolved to is kept, as the JavaScript closure keeps it.  One
    [refresh_turn] runs a call from one resolved [await] to the next, the
    database call it ends in included; other requests run between turns. *)

Inductive RefreshTask : Type :=
| Started (req : RefreshRequest)
    (* the handler has been entered *)
| Looked (incomingRefreshToken : string) (user : option User)
    (* the handler's [findById] has resolved *)
| GenLooked (user : option User)
    (* the [findById] of the token generator has resolved *)
| Saved (accessToken refreshToken : string)
    (* [user.save] has resolved *)
| Finished (outcome : Result Response).

Section Turns.

Variable env : Env.

Definition refresh_turn (task : RefreshTask) (st : Store)
  : RefreshTask * Store :=
  match task with
  | Started req =>
      let incoming :=
        js_or (cookies_refreshToken req) (body_refreshToken req) in
      if negb (truthy incoming)
      then (Finished (Throw (ApiError 401 "Unauthorized request")), st)
      else
        let incomingRefreshToken := text_of incoming in
        match jwt_verify env incomingRefreshToken
                (REFRESH_TOKEN_SECRET env) with
        | Throw e => (Finished (Throw (refresh_catch e)), st)
        | Ok decodedToken =>
            match db_fault env RefreshFindById with
            | Some e => (Finished (Throw (refresh_catch e)), st)
            | None =>
                (Looked incomingRefreshToken
                   (findById st (sub_id decodedToken)), st)
            end
        end
  | Looked incomingRefreshToken user =>
      match user with
      | None =>
          (Finished (Throw (refresh_catch
                              (ApiError 401 "Invalid refresh token"))), st)
      | Some user =>
          if strict_neq incomingRefreshToken (refreshToken user)
          then (Finished (Throw (refresh_catch
                   (ApiError 401 "Refresh token is expired or used"))), st)
          else
            match db_fault env GenFindById with
            | Some _ => (Finished (Throw (refresh_catch token_error)), st)
            | None => (GenLooked (findById st (Some (_id user))), st)
            end
      end
  | GenLooked user =>
      match user with
      | None => (Finished (Throw (refresh_catch token_error)), st)
      | Some user =>
          match generateAccessToken env user with
          | Throw _ => (Finished (Throw (refresh_catch token_error)), st)
          | Ok accessToken =>
              match generateRefreshToken env user with
              | Throw _ =>
                  (Finished (Throw (refresh_catch token_error)), st)
              | Ok refreshToken =>
                  match db_fault env GenSave with
                  | Some _ =>
                      (Finished (Throw (refresh_catch token_error)), st)
                  | None =>
                      (Saved accessToken refreshToken,
                       save st (set_refreshToken user (Some refreshToken)))
                  end
              end
          end
      end
  | Saved accessToken refreshToken =>
      let tokens := [("accessToken", JStr accessToken);
                     ("refreshToken", JStr refreshToken)] in
      let accessToken := prop "accessToken" tokens in
      let newRefreshToken := prop "newRefreshToken" tokens in
      (Finished (Ok (refresh_reply accessToken newRefreshToken)), st)
  | Finished outcome => (Finished outcome, st)
  end.

(** One call run alone for [n] turns. *)
Fixpoint refresh_turns (n : nat) (task : RefreshTask) (st : Store)
  : RefreshTask * Store :=
  match n with
  | O => (task, st)
  | S n' => let (task', st') := refresh_turn task st in
            refresh_turns n' task' st'
  end.

End Turns.

(** Two calls on one store.  A schedule says, turn by turn, which of the two
    runs next. *)
Inductive Caller : Type := First | Second.

Fixpoint interleave (env1 env2 : Env) (schedule : list Caller)
    (t1 t2 : RefreshTask) (st : Store) : RefreshTask * RefreshTask * Store :=
  match schedule with
  | [] => (t1, t2, st)
  | First :: rest =>
      let (t1', st') := refresh_turn env1 t1 st in
      interleave env1 env2 rest t1' t2 st'
  | Second :: rest =>
      let (t2', st') := refresh_turn env2 t2 st in
      interleave env1 env2 rest t1 t2' st'
  end.

(** Both calls pass the comparison before either writes. *)
Definition lockstep : list Caller :=
  [First; Second; First; Second; First; Second; First; Second].

(** The turns a caller takes in a schedule. *)
Fixpoint turns_of (c : Caller) (schedule : list Caller) : nat :=
  match schedule with
  | [] => O
  | First :: rest =>
      match c with
      | First => S (turns_of c rest)
      | Second => turns_of c rest
      end
  | Second :: rest =>
      match c with
      | First => turns_of c rest
      | Second => S (turns_of c rest)
      end
  end.

(** Four turns, two for each caller.  A call has four turns: it reads the
    user, compares and reads again, mints and saves, replies.  In a schedule
    [early ++ late] with [two_each early] and [two_each late], both calls
    have compared by the end of [early] and neither has saved; both save and
    reply in [late]. *)
Definition two_each (schedule : list Caller) : bool :=
  Nat.eqb (turns_of First schedule) 2 && Nat.eqb (turns_of Second schedule) 2.

(** The caller whose save comes second in [late]: the one that does not
    open it. *)
Definition saves_last (late : list Caller) : Caller :=
  match late with
  | First :: _ => Second
  | _ => First
  end.

Definition succeeded (t : RefreshTask) : bool :=
  match t with
  | Finished (Ok _) => true
  | _ => false
  end.

(** ** A small world to run the handlers in *)

Module World.

Definition alice : User :=
  mkUser "65a1" "alice" "alice@example.org" "Alice A" "a.png" ""
         "hash:correct-pw" None.

Definition bob : User :=
  mkUser "65b2" "bob" "bob@example.org" "Bob B" "b.png" "c.png"
         "hash:hunter2" (Some "R.65b2.at-090").

Definition users : Store := [alice; bob].

(** Tokens are readable here: kind, subject and the stamp of issue. *)
Definition mint (kind stamp : string) (u : User) : Result string :=
  Ok (kind ++ "." ++ _id u ++ "." ++ stamp).

Definition verify (token : string) (secret : option string)
  : Result JwtPayload :=
  match secret with
  | None =>
      Throw (LibError "JsonWebTokenError"
                      "secret or public key must be provided")
  | Some _ =>
      if String.prefix "R.65a1." token then Ok (mkPayload (Some "65a1"))
      else if String.prefix "R.65b2." token then Ok (mkPayload (Some "65b2"))
      else if String.prefix "R.gone." token then Ok (mkPayload (Some "gone"))
      else Throw (LibError "JsonWebTokenError" "jwt malformed")
  end.

Definition compare (u : User) (plain : option string) : Result bool :=
  match plain with
  | Some p => Ok (String.eqb ("hash:" ++ p) (password u))
  | None => Throw (LibError "Error" "data and hash arguments required")
  end.

(** The collaborators at the moment whose stamp is [stamp]; the database
    answers every call. *)
Definition at_ (stamp : string) : Env :=
  mkEnv (Some "refresh-secret") verify (mint "A" stamp) (mint "R" stamp)
        compare (fun _ => None) (fun _ _ u => u) (fun _ _ u => u).

Definition login_alice : LoginRequest :=
  mkLoginRequest (Some "alice") None (Some "correct-pw").

Definition login_alice_wrong : LoginRequest :=
  mkLoginRequest (Some "alice") None (Some "wrong-pw").

Definition login_nobody : LoginRequest :=
  mkLoginRequest (Some "nobody") None (Some "correct-pw").

Definition login_alice_no_password : LoginRequest :=
  mkLoginRequest (Some "alice") None None.

Definition present (token : string) : RefreshRequest :=
  mkRefreshRequest (Some token) None.

(** The store after alice has logged in at stamp [at-100]. *)
Definition logged_in : Store :=
  snd (loginuser (at_ "at-100") login_alice users).

End World.

(** ** Strings as JavaScript sees them

    [trim] and [toLowerCase] on strings whose code units are below 256, each
    character of a string standing for the code unit with its number. *)

(** The white space and line terminators below 256: tab, line feed, vertical
    tab, form feed, carriage return, space and no-break space. *)
Definition is_space (c : ascii) : bool :=
  let n := nat_of_ascii c in
  (Nat.eqb n 9 || Nat.eqb n 10 || Nat.eqb n 11 || Nat.eqb n 12
   || Nat.eqb n 13 || Nat.eqb n 32 || Nat.eqb n 160)%bool.

Fixpoint trimStart (s : string) : string :=
  match s with
  | EmptyString => EmptyString
  | String c rest => if is_space c then trimStart rest else s
  end.

Fixpoint trimEnd (s : string) : string :=
  match s with
  | EmptyString => EmptyString
  | String c rest =>
      let rest' := trimEnd rest in
      if is_space c && String.eqb rest' "" then EmptyString
      else String c rest'
  end.

(** Only white space, or nothing at all. *)
Fixpoint all_space (s : string) : bool :=
  match s with
  | EmptyString => true
  | String c rest => is_space c && all_space rest
  end.

(** [s.trim()] *)
Definition trim (s : string) : string := trimEnd (trimStart s).

(** The letters with a lower-case form below 256: A to Z, and the accented
    capitals from 192 to 222 except the multiplication sign at 215. *)
Definition lower_unit (c : ascii) : ascii :=
  let n := nat_of_ascii c in
  if ((Nat.leb 65 n && Nat.leb n 90)
      || (Nat.leb 192 n && Nat.leb n 222 && negb (Nat.eqb n 215)))%bool
  then ascii_of_nat (n + 32)
  else c.

(** [s.toLowerCase()] *)
Fixpoint toLowerCase (s : string) : string :=
  match s with
  | EmptyString => EmptyString
  | String c rest => String (lower_unit c) (toLowerCase rest)
  end.

(** ** The local disk and the media host *)

(** The paths of the files that exist. *)
Definition Disk := list string.

(** A computation over any state that may throw; [M] is the case of the
    store. *)
Definition St (S A : Type) : Type := S -> Result A * S.

Definition unit_ {S A} (a : A) : St S A := fun s => (Ok a, s).

Definition raise {S A} (e : JsError) : St S A := fun s => (Throw e, s).

Definition then_ {S A B} (m : St S A) (k : A -> St S B) : St S B :=
  fun s =>
    match m s with
    | (Ok a, s') => k a s'
    | (Throw e, s') => (Throw e, s')
    end.

(** [try { m } catch (error) { handler error }] *)
Definition attempt {S A} (m : St S A) (handler : JsError -> St S A) : St S A :=
  fun s =>
    match m s with
    | (Ok a, s') => (Ok a, s')
    | (Throw e, s') => handler e s'
    end.

Definition sync {S A} (r : Result A) : St S A := fun s => (r, s).

Notation "x <~ m ;; k" := (then_ m (fun x => k))
  (at level 61, m at next level, right associativity).
Notation "m ~;; k" := (then_ m (fun _ => k))
  (at level 61, right associativity).

(** [fs.existsSync(path)]: false for a path that is not a string. *)
Definition existsSync (path : option string) (disk : Disk) : bool :=
  match path with
  | Some p => mem p disk
  | None => false
  end.

(** The disk once the file at [p] is gone. *)
Definition without (p : string) (disk : Disk) : Disk :=
  filter (fun q => negb (String.eqb q p)) disk.

(** [fs.unlinkSync(path)]: removes the file, and throws when there is none
    or when the path is not a string. *)
Definition unlinkSync (path : option string) : St Disk unit :=
  fun disk =>
    match path with
    | None =>
        (Throw (LibError "TypeError"
                  "The path argument must be of type string. Received undefined"),
         disk)
    | Some p =>
        if mem p disk
        then (Ok tt, without p disk)
        else (Throw (LibError "Error"
                       ("ENOENT: no such file or directory, unlink '"
                        ++ p ++ "'")), disk)
    end.

(** What the media host answers to an upload; the controller reads its
    [url]. *)
Record CloudResponse : Type := mkCloudResponse {
  url : option string
}.

(** The places where [registerUser] awaits the database. *)
Inductive RegCall : Type :=
| RegFindOne      (* User.findOne *)
| RegCreate       (* User.create *)
| RegFindById.    (* User.findById(...).select(...) *)

(** The collaborators of a registration, for the duration of one call. *)
Record RegEnv : Type := mkRegEnv {
  (** [cloudinary.uploader.upload(path, { resource_type: "auto" })] *)
  upload : string -> Result CloudResponse;
  (** The error, if any, with which the database rejects the call made at a
      given place (driver error, unique index, validation of values). *)
  reg_fault : RegCall -> option JsError;
  (** The error [User.create] rejects with when a field the model requires is
      missing. *)
  validation_error : JsError;
  (** The error the store rejects an insert with when the username or the
      email is already taken. *)
  conflict_error : JsError;
  (** The [_id] the database gives to a new document. *)
  new_id : Store -> UserId;
  (** The hash stored in place of a password. *)
  hash_password : string -> string
}.

Record UploadedFile : Type := mkFile {
  path : string
}.

(** [req.files] as the upload middleware fills it: one array per field, or
    nothing for a field without files. *)
Record UploadedFiles : Type := mkFiles {
  files_avatar : option (list UploadedFile);
  files_coverImage : option (list UploadedFile)
}.

Record RegisterRequest : Type := mkRegisterRequest {
  reg_fullName : option string;
  reg_email : option string;
  reg_username : option string;
  reg_password : option string;
  reg_files : option UploadedFiles
}.

(** The state a registration works on: the collection and the disk the
    upload middleware has written the files to. *)
Record Site : Type := mkSite {
  site_users : Store;
  site_disk : Disk
}.

Definition on_store {A} (m : St Store A) : St Site A :=
  fun s =>
    let (r, st') := m (site_users s) in (r, mkSite st' (site_disk s)).

Definition on_disk {A} (m : St Disk A) : St Site A :=
  fun s =>
    let (r, disk') := m (site_disk s) in (r, mkSite (site_users s) disk').

Section Registration.

Variable renv : RegEnv.

Definition uploadOnCloudinary (localFilePath : option string)
  : St Disk (option CloudResponse) :=
  attempt
    (fun disk =>
       if negb (existsSync localFilePath disk)
       then (Ok None, disk)
       else
         (response <~ sync (upload renv (text_of localFilePath)) ;;
          unlinkSync localFilePath ~;;
          unit_ (Some response)) disk)
    (fun error =>
       unlinkSync localFilePath ~;;
       raise error).

(** An awaited database call of the registration. *)
Definition reg_db {A} (place : RegCall) (op : Store -> A * Store)
  : St Store A :=
  fun st =>
    match reg_fault renv place with
    | Some e => (Throw e, st)
    | None => let (a, st') := op st in (Ok a, st')
    end.

(** Modelled from the spec: [models/user.model.js] is not part of the
    sources.  [User.create] rejects a document that lacks the full name, the
    email or the password (section 3 lists them as parts of every user).
    The store keeps usernames and emails unique (sections 3 and 4.2): an
    insert whose username or email a stored document already has is rejected
    as a conflict.  Otherwise, unless the database rejects the insert for a
    reason of its own, the document is appended with a new [_id], the
    password replaced by its hash, and no refresh token. *)
Definition create (fullName : option string) (avatar coverImage : string)
    (email password : option string) (username : string) : St Store User :=
  match fullName, email, password with
  | Some f, Some e, Some p =>
      fun st =>
        match reg_fault renv RegCreate with
        | Some err => (Throw err, st)
        | None =>
            match findOne st (Some username) (Some e) with
            | Some _ => (Throw (conflict_error renv), st)
            | None =>
                let user := mkUser (new_id renv st) username e f avatar
                                   coverImage (hash_password renv p) None in
                (Ok user, (st ++ [user])%list)
            end
        end
  | _, _, _ => raise (validation_error renv)
  end.

(** [field?.trim() == ""] *)
Definition blank (field : option string) : bool :=
  match field with
  | Some s => String.eqb (trim s) ""
  | None => false
  end.

(** [response?.url || ""] *)
Definition url_or_empty (response : option CloudResponse) : string :=
  match response with
  | Some r => text_of (js_or (url r) (Some ""))
  | None => ""
  end.

(** [username.toLowerCase()], a [TypeError] when the username is missing. *)
Definition lowered (username : option string) : Result string :=
  match username with
  | Some s => Ok (toLowerCase s)
  | None =>
      Throw (LibError "TypeError"
               "Cannot read properties of undefined (reading 'toLowerCase')")
  end.

Definition register_reply (createdUser : JsVal) : Response :=
  res_json (mkApiResponse 200 createdUser "User registered successfully")
           (res_status 201 res).

(** [req.files?.avatar] *)
Definition avatarFiles (req : RegisterRequest) : option (list UploadedFile) :=
  match reg_files req with
  | Some files => files_avatar files
  | None => None
  end.

(** The path of the first cover image, when [req.files.coverImage] is a
    non-empty array; [undefined] otherwise. *)
Definition coverImageLocalPath (req : RegisterRequest) : option string :=
  match reg_files req with
  | Some files =>
      match files_coverImage files with
      | Some (first :: _) => Some (path first)
      | _ => None
      end
  | None => None
  end.

Definition registerUser (req : RegisterRequest) : St Site Response :=
  let fullName := reg_fullName req in
  let email := reg_email req in
  let username := reg_username req in
  let password := reg_password req in
  if existsb blank [fullName; email; username; password]
  then raise (ApiError 400 "All fields are required")
  else
    existingUser <~ on_store
      (reg_db RegFindOne (fun st => (findOne st username email, st))) ;;
    match existingUser with
    | Some _ =>
        raise (ApiError 409 "User with email or username already registered")
    | None =>
        match avatarFiles req with
        | None | Some [] => raise (ApiError 400 "Avatar file is required")
        | Some (first :: _) =>
            avatar <~ on_disk (uploadOnCloudinary (Some (path first))) ;;
            coverImage <~ on_disk
              (uploadOnCloudinary (coverImageLocalPath req)) ;;
            match avatar with
            | None => raise (ApiError 400 "Avatar file upload failed")
            | Some _ =>
                lower <~ sync (lowered username) ;;
                user <~ on_store
                  (create fullName (url_or_empty avatar)
                     (url_or_empty coverImage) email password lower) ;;
                found <~ on_store
                  (reg_db RegFindById
                     (fun st => (findById st (Some (_id user)), st))) ;;
                match found with
                | None => raise (ApiError 500 "Error registering the user")
                | Some _ =>
                    unit_ (register_reply
                             (selected "-password -refreshToken" found))
                end
            end
        end
    end.

End Registration.

(** ** A small world to register in *)

Module Signup.

Fixpoint tally (n : nat) : string :=
  match n with
  | O => ""
  | S n' => "i" ++ tally n'
  end.

(** The media host refuses one file and takes every other. *)
Definition host (p : string) : Result CloudResponse :=
  if String.eqb p "tmp/refused.png"
  then Throw (LibError "Error" "Invalid image file")
  else Ok (mkCloudResponse (Some ("https://media.example/" ++ p))).

Definition office : RegEnv :=
  mkRegEnv host (fun _ => None)
           (LibError "ValidationError" "User validation failed")
           (LibError "MongoServerError" "E11000 duplicate key error")
           (fun st => "new-" ++ tally (length st))
           (fun p => "hash:" ++ p).

Definition carol : RegisterRequest :=
  mkRegisterRequest (Some "Carol C") (Some "carol@example.org")
    (Some "Carol") (Some "s3cret")
    (Some (mkFiles (Some [mkFile "tmp/a1.png"]) (Some [mkFile "tmp/c1.png"]))).

(** A second alice, spelled with a capital. *)
Definition capital_alice : RegisterRequest :=
  mkRegisterRequest (Some "Alice Again") (Some "again@example.org")
    (Some "Alice") (Some "pw")
    (Some (mkFiles (Some [mkFile "tmp/a1.png"]) None)).

Definition nothing : RegisterRequest :=
  mkRegisterRequest None None None None None.

Definition site : Site :=
  mkSite World.users ["tmp/a1.png"; "tmp/c1.png"; "tmp/other.bin"].

End Signup.

(** A moment at which the database drops the last lookup of a login. *)

Module Outage.

Definition flaky : Env :=
  mkEnv (Some "refresh-secret") World.verify (World.mint "A" "at-100")
        (World.mint "R" "at-100") World.compare
        (fun place =>
           match place with
           | LoginFindById =>
               Some (LibError "MongoNetworkError" "connection lost")
           | _ => None
           end)
        (fun _ _ u => u) (fun _ _ u => u).

Definition login_bob : LoginRequest :=
  mkLoginRequest (Some "bob") None (Some "hunter2").

End Outage.

(** * Properties *)

Unset Implicit Arguments.

(** ** The store *)

Lemma set_refreshToken_same (u : User) :
  set_refreshToken u (refreshToken u) = u.
Proof. destruct u; reflexivity. Qed.

Lemma findById_id (st : Store) (i : UserId) (u : User) :
  findById st (Some i) = Some u -> _id u = i.
Proof.
  induction st as [|d rest IH]; simpl; [discriminate|].
  destruct (String.eqb (_id d) i) eqn:E.
  - intros [= <-]. now apply String.eqb_eq.
  - exact IH.
Qed.

Lemma findById_updateOne (st : Store) (i : UserId) (f : User -> User) (u : User) :
  (forall x, _id (f x) = _id x) ->
  findById st (Some i) = Some u ->
  findById (updateOne st i f) (Some i) = Some (f u).
Proof.
  intros Hf. induction st as [|d rest IH]; simpl; [discriminate|].
  destruct (String.eqb (_id d) i) eqn:E; simpl.
  - intros [= <-]. now rewrite Hf, E.
  - rewrite E. exact IH.
Qed.

Lemma updateOne_fixed (st : Store) (i : UserId) (f : User -> User) :
  (forall u, findById st (Some i) = Some u -> f u = u) ->
  updateOne st i f = st.
Proof.
  induction st as [|d rest IH]; simpl; [reflexivity|].
  destruct (String.eqb (_id d) i) eqn:E; intros H.
  - now rewrite (H d eq_refl).
  - now rewrite (IH H).
Qed.

Lemma findById_save (st : Store) (u : User) (t : option string) :
  findById st (Some (_id u)) = Some u ->
  findById (save st (set_refreshToken u t)) (Some (_id u))
  = Some (set_refreshToken u t).
Proof.
  intros H. unfold save. simpl.
  exact (@findById_updateOne st (_id u) (fun x => set_refreshToken x t) u
           (fun _ => eq_refl) H).
Qed.

Lemma findById_self (st : Store) (i : UserId) (u : User) :
  findById st (Some i) = Some u -> findById st (Some (_id u)) = Some u.
Proof. intros H. now rewrite (findById_id _ _ _ H). Qed.

Lemma findOne_findById (st : Store) (a b : option string) (u : User) :
  findOne st a b = Some u ->
  exists u0, findById st (Some (_id u)) = Some u0.
Proof.
  induction st as [|d rest IH]; simpl; [discriminate|].
  destruct (field_matches a (username d) || field_matches b (email d)).
  - intros [= <-]. rewrite String.eqb_refl. now exists d.
  - intros H. destruct (String.eqb (_id d) (_id u)); [now exists d | auto].
Qed.

(** ** The token generator, case by case *)

Lemma generate_cases (env : Env) (userId : UserId) (st : Store) :
  generateAccessAndRefereshTokens env userId st =
  match db_fault env GenFindById with
  | Some _ => (Throw token_error, st)
  | None =>
      match findById st (Some userId) with
      | None => (Throw token_error, st)
      | Some u =>
          match generateAccessToken env u with
          | Throw _ => (Throw token_error, st)
          | Ok a =>
              match generateRefreshToken env u with
              | Throw _ => (Throw token_error, st)
              | Ok r =>
                  match db_fault env GenSave with
                  | Some _ => (Throw token_error, st)
                  | None =>
                      (Ok [("accessToken", JStr a); ("refreshToken", JStr r)],
                       save st (set_refreshToken u (Some r)))
                  end
              end
          end
      end
  end.
Proof.
  unfold generateAccessAndRefereshTokens, try_catch, bind, db_findById,
    db_save, db, call, throw, ret.
  destruct (db_fault env GenFindById); [reflexivity|].
  destruct (findById st (Some userId)) as [u|]; [|reflexivity].
  destruct (generateAccessToken env u); [|reflexivity].
  destruct (generateRefreshToken env u); [|reflexivity].
  destruct (db_fault env GenSave); reflexivity.
Qed.

Lemma generate_throws (env : Env) (userId : UserId) (st st' : Store)
    (e : JsError) :
  generateAccessAndRefereshTokens env userId st = (Throw e, st') ->
  e = token_error /\ st' = st.
Proof.
  rewrite generate_cases.
  repeat match goal with
         | |- context [match ?x with _ => _ end] => destruct x
         end; intros [= <- <-]; auto.
Qed.

Lemma generate_returns (env : Env) (userId : UserId) (st st' : Store)
    (tokens : JsObject) :
  generateAccessAndRefereshTokens env userId st = (Ok tokens, st') ->
  exists u a r,
    findById st (Some userId) = Some u /\
    generateAccessToken env u = Ok a /\
    generateRefreshToken env u = Ok r /\
    tokens = [("accessToken", JStr a); ("refreshToken", JStr r)] /\
    st' = save st (set_refreshToken u (Some r)).
Proof.
  rewrite generate_cases.
  destruct (db_fault env GenFindById); [discriminate|].
  destruct (findById st (Some userId)) as [u|]; [|discriminate].
  destruct (generateAccessToken env u) as [a|] eqn:Ha; [|discriminate].
  destruct (generateRefreshToken env u) as [r|] eqn:Hr; [|discriminate].
  destruct (db_fault env GenSave); [discriminate|].
  intros [= <- <-]. now exists u, a, r.
Qed.

(** ** The handlers, case by case *)

Lemma login_cases (env : Env) (req : LoginRequest) (st : Store) :
  loginuser env req st =
  if negb (truthy (body_username req) || truthy (body_email req))
  then (Throw (ApiError 400 "Username or email is required"), st)
  else
    match db_fault env LoginFindOne with
    | Some e => (Throw e, st)
    | None =>
        match findOne st (body_username req) (body_email req) with
        | None => (Throw (ApiError 404 "User does not exist"), st)
        | Some u =>
            match isPassWordCorrect env u (body_password req) with
            | Throw e => (Throw e, st)
            | Ok false => (Throw (ApiError 401 "Invalid user credentials"), st)
            | Ok true =>
                match generateAccessAndRefereshTokens env (_id u) st with
                | (Throw e, st') => (Throw e, st')
                | (Ok tokens, st') =>
                    match db_fault env LoginFindById with
                    | Some e => (Throw e, st')
                    | None =>
                        (Ok (login_reply
                               (selected "-password -refreshToken"
                                  (findById st' (Some (_id u))))
                               (prop "accessToken" tokens)
                               (prop "refreshToken" tokens)), st')
                    end
                end
            end
        end
    end.
Proof.
  unfold loginuser.
  destruct (negb (truthy (body_username req) || truthy (body_email req)));
    [reflexivity|].
  unfold bind, db_findOne, db_findById, db, call, throw, ret.
  destruct (db_fault env LoginFindOne); [reflexivity|].
  destruct (findOne st (body_username req) (body_email req)) as [u|];
    [|reflexivity].
  destruct (isPassWordCorrect env u (body_password req)) as [[|]|];
    try reflexivity.
  simpl.
  destruct (generateAccessAndRefereshTokens env (_id u) st) as [[tokens|e] st'];
    [|reflexivity].
  destruct (db_fault env LoginFindById); reflexivity.
Qed.

Lemma refresh_cases (env : Env) (req : RefreshRequest) (st : Store) :
  refreshAccessToken env req st =
  let incoming := js_or (cookies_refreshToken req) (body_refreshToken req) in
  if negb (truthy incoming)
  then (Throw (ApiError 401 "Unauthorized request"), st)
  else
    match jwt_verify env (text_of incoming) (REFRESH_TOKEN_SECRET env) with
    | Throw e => (Throw (refresh_catch e), st)
    | Ok decoded =>
        match db_fault env RefreshFindById with
        | Some e => (Throw (refresh_catch e), st)
        | None =>
            match findById st (sub_id decoded) with
            | None =>
                (Throw (refresh_catch (ApiError 401 "Invalid refresh token")),
                 st)
            | Some u =>
                if strict_neq (text_of incoming) (refreshToken u)
                then (Throw (refresh_catch
                        (ApiError 401 "Refresh token is expired or used")), st)
                else
                  match generateAccessAndRefereshTokens env (_id u) st with
                  | (Throw e, st') => (Throw (refresh_catch e), st')
                  | (Ok tokens, st') =>
                      (Ok (refresh_reply (prop "accessToken" tokens)
                             (prop "newRefreshToken" tokens)), st')
                  end
            end
        end
    end.
Proof.
  unfold refreshAccessToken. cbv zeta.
  destruct (negb (truthy (js_or (cookies_refreshToken req)
                            (body_refreshToken req)))); [reflexivity|].
  unfold try_catch, bind, db_findById, db, call, throw, ret.
  destruct (jwt_verify env _ _) as [decoded|e]; [|reflexivity].
  destruct (db_fault env RefreshFindById); [reflexivity|].
  destruct (findById st (sub_id decoded)) as [u|]; [|reflexivity].
  destruct (strict_neq _ (refreshToken u)); [reflexivity|].
  destruct (generateAccessAndRefereshTokens env (_id u) st) as [[tokens|e] st'];
    reflexivity.
Qed.

(** The update document of [logOutUser] changes no document: its key [set]
    is neither an operator nor a path of the schema. *)
Lemma logout_update_changes_nothing (env : Env) (u : User) :
  apply_update env logout_update u = u.
Proof. reflexivity. Qed.

Lemma logout_cases (env : Env) (req : LogoutRequest) (st : Store) :
  logOutUser env req st =
  match db_fault env LogoutUpdate with
  | Some e => (Throw e, st)
  | None => (Ok logout_reply, st)
  end.
Proof.
  unfold logOutUser, bind, db_findByIdAndUpdate, db, ret.
  destruct (db_fault env LogoutUpdate); [reflexivity|].
  rewrite updateOne_fixed; [reflexivity|].
  intros u _. apply logout_update_changes_nothing.
Qed.

Lemma refresh_turns_step (env : Env) (n : nat) (t : RefreshTask) (st : Store) :
  refresh_turns env (S n) t st =
  refresh_turns env n (fst (refresh_turn env t st))
                      (snd (refresh_turn env t st)).
Proof. simpl. now destruct (refresh_turn env t st). Qed.

Lemma refresh_turns_finished (env : Env) (n : nat) (r : Result Response)
    (st : Store) :
  refresh_turns env n (Finished r) st = (Finished r, st).
Proof. induction n; simpl; auto. Qed.

(** A call run alone, turn after turn, is the handler. *)
Lemma refresh_turns_sequential (env : Env) (req : RefreshRequest) (st : Store) :
  refresh_turns env 4 (Started req) st =
  (Finished (fst (refreshAccessToken env req st)),
   snd (refreshAccessToken env req st)).
Proof.
  rewrite refresh_cases. cbv zeta.
  rewrite refresh_turns_step. unfold refresh_turn at 1 2.
  destruct (negb (truthy (js_or (cookies_refreshToken req)
                            (body_refreshToken req))));
    [apply refresh_turns_finished|].
  destruct (jwt_verify env _ _) as [decoded|e];
    [|apply refresh_turns_finished].
  destruct (db_fault env RefreshFindById); [apply refresh_turns_finished|].
  cbn [fst snd].
  rewrite refresh_turns_step. unfold refresh_turn at 1 2.
  destruct (findById st (sub_id decoded)) as [u|] eqn:Hu;
    [|apply refresh_turns_finished].
  destruct (strict_neq _ (refreshToken u)); [apply refresh_turns_finished|].
  rewrite generate_cases.
  destruct (db_fault env GenFindById); [apply refresh_turns_finished|].
  cbn [fst snd].
  rewrite refresh_turns_step. unfold refresh_turn at 1 2.
  destruct (findById st (Some (_id u))) as [u0|];
    [|apply refresh_turns_finished].
  destruct (generateAccessToken env u0); [|apply refresh_turns_finished].
  destruct (generateRefreshToken env u0); [|apply refresh_turns_finished].
  destruct (db_fault env GenSave); [apply refresh_turns_finished|].
  reflexivity.
Qed.

(** ** Token generation *)

Lemma refresh_catch_token_error :
  refresh_catch token_error
  = ApiError 401 "Error generating refresh and access tokens".
Proof. reflexivity. Qed.

(** C9.  Whatever goes wrong inside [generateAccessAndRefereshTokens], the
    error that leaves it is the one with status 500 and message "Error
    generating refresh and access tokens", and the store is as it was.  A
    user id that resolves to no user is such a failure: the 404 thrown for it
    is caught and replaced like any other.  [loginuser] passes the 500 on to
    its caller; in [refreshAccessToken] the enclosing [catch] wraps it once
    more, keeping the message under status 401.  Neither caller ever sees the
    404. *)
Theorem token_generation_failure_is_500 (env : Env) :
  (forall userId st,
      findById st (Some userId) = None ->
      generateAccessAndRefereshTokens env userId st
      = (Throw (ApiError 500 "Error generating refresh and access tokens"),
         st))
  /\ (forall userId st st' e,
      generateAccessAndRefereshTokens env userId st = (Throw e, st') ->
      e = ApiError 500 "Error generating refresh and access tokens"
      /\ st' = st)
  /\ (forall req st st' u e,
      truthy (body_username req) || truthy (body_email req) = true ->
      db_fault env LoginFindOne = None ->
      findOne st (body_username req) (body_email req) = Some u ->
      isPassWordCorrect env u (body_password req) = Ok true ->
      generateAccessAndRefereshTokens env (_id u) st = (Throw e, st') ->
      loginuser env req st
      = (Throw (ApiError 500 "Error generating refresh and access tokens"),
         st))
  /\ (forall req st st' payload u e,
      let incoming :=
        js_or (cookies_refreshToken req) (body_refreshToken req) in
      truthy incoming = true ->
      jwt_verify env (text_of incoming) (REFRESH_TOKEN_SECRET env)
      = Ok payload ->
      db_fault env RefreshFindById = None ->
      findById st (sub_id payload) = Some u ->
      refreshToken u = Some (text_of incoming) ->
      generateAccessAndRefereshTokens env (_id u) st = (Throw e, st') ->
      refreshAccessToken env req st
      = (Throw (ApiError 401 "Error generating refresh and access tokens"),
         st)).
Proof.
  repeat split.
  - intros userId st Hnone. rewrite generate_cases, Hnone.
    now destruct (db_fault env GenFindById).
  - now destruct (generate_throws _ _ _ _ _ H).
  - now destruct (generate_throws _ _ _ _ _ H).
  - intros req st st' u e Hid Hdb Hfind Hpw Hgen.
    destruct (generate_throws _ _ _ _ _ Hgen) as [-> ->].
    rewrite login_cases, Hid, Hdb, Hfind, Hpw, Hgen. reflexivity.
  - intros req st st' payload u e incoming Hid Hv Hdb Hfind Htok Hgen.
    destruct (generate_throws _ _ _ _ _ Hgen) as [-> ->].
    rewrite refresh_cases. cbv zeta. fold incoming.
    rewrite Hid, Hv, Hdb, Hfind, Htok, Hgen. simpl.
    now rewrite String.eqb_refl.
Qed.

Lemma token_generation_failure_is_500_witness :
  generateAccessAndRefereshTokens (World.at_ "at-100") "gone" World.users
  = (Throw (ApiError 500 "Error generating refresh and access tokens"),
     World.users)
  /\ (let failing :=
        mkEnv (Some "refresh-secret") World.verify (World.mint "A" "at-100")
              (fun _ => Throw (LibError "Error" "secretOrPrivateKey must have a value"))
              World.compare (fun _ => None) (fun _ _ u => u) (fun _ _ u => u) in
      loginuser failing World.login_alice World.users
      = (Throw (ApiError 500 "Error generating refresh and access tokens"),
         World.users)).
Proof.
  split.
  - apply (proj1 (token_generation_failure_is_500 (World.at_ "at-100"))).
    reflexivity.
  - cbv zeta.
    refine (proj1 (proj2 (proj2 (token_generation_failure_is_500 _)))
              World.login_alice World.users World.users World.alice
              (ApiError 500 "Error generating refresh and access tokens")
              _ _ _ _ _); reflexivity.
Defined.

(** ** Login *)

(** What a successful login has gone through. *)
Lemma login_succeeds_inv (env : Env) (req : LoginRequest) (st st' : Store)
    (resp : Response) :
  loginuser env req st = (Ok resp, st') ->
  exists u u0 a r,
    findOne st (body_username req) (body_email req) = Some u /\
    isPassWordCorrect env u (body_password req) = Ok true /\
    findById st (Some (_id u)) = Some u0 /\
    generateAccessToken env u0 = Ok a /\
    generateRefreshToken env u0 = Ok r /\
    st' = save st (set_refreshToken u0 (Some r)) /\
    findById st' (Some (_id u)) = Some (set_refreshToken u0 (Some r)) /\
    resp = login_reply
             (selected "-password -refreshToken"
                (Some (set_refreshToken u0 (Some r))))
             (JStr a) (JStr r).
Proof.
  rewrite login_cases.
  destruct (negb _); [discriminate|].
  destruct (db_fault env LoginFindOne); [discriminate|].
  destruct (findOne st _ _) as [u|]; [|discriminate].
  destruct (isPassWordCorrect env u _) as [[|]|] eqn:Hpw; try discriminate.
  destruct (generateAccessAndRefereshTokens env (_id u) st)
    as [[tokens|e] st1] eqn:Hgen; [|discriminate].
  destruct (generate_returns _ _ _ _ _ Hgen)
    as (u0 & a & r & Hu0 & Ha & Hr & -> & ->).
  destruct (db_fault env LoginFindById); [discriminate|].
  assert (Hfound : findById (save st (set_refreshToken u0 (Some r)))
                     (Some (_id u)) = Some (set_refreshToken u0 (Some r))).
  { rewrite <- (findById_id _ _ _ Hu0).
    apply findById_save. exact (findById_self _ _ _ Hu0). }
  rewrite Hfound. intros [= <- <-].
  exists u, u0, a, r. repeat split; assumption.
Qed.

(** The projection of [loginuser] removes both secrets from any document
    and keeps the rest. *)
Lemma select_drops_secrets (u : User) :
  select "-password -refreshToken" (toObject u)
  = [("_id", JStr (_id u)); ("username", JStr (username u));
     ("email", JStr (email u)); ("fullName", JStr (fullName u));
     ("avatar", JStr (avatar u)); ("coverImage", JStr (coverImage u))].
Proof. destruct u as [i n e f a c p [t|]]; reflexivity. Qed.

(** C4.  After a successful login the refresh token stored on the user the
    request identified is, character for character, the refresh token the
    caller was given, in the body and in the cookie. *)
Theorem login_stores_returned_refresh_token
    (env : Env) (req : LoginRequest) (st st' : Store) (resp : Response) :
  loginuser env req st = (Ok resp, st') ->
  exists u u' t,
    findOne st (body_username req) (body_email req) = Some u /\
    findById st' (Some (_id u)) = Some u' /\
    refreshToken u' = Some t /\
    body_field "refreshToken" resp = JStr t /\
    cookie_named "refreshToken" (cookies resp) = Some (JStr t).
Proof.
  intros H.
  destruct (login_succeeds_inv _ _ _ _ _ H)
    as (u & u0 & a & r & Hu & _ & _ & _ & _ & _ & Hfound & ->).
  exists u, (set_refreshToken u0 (Some r)), r.
  repeat split; auto.
Qed.

Lemma login_stores_returned_refresh_token_witness :
  exists u' t,
    findById World.logged_in (Some "65a1") = Some u' /\
    refreshToken u' = Some t /\
    body_field "refreshToken"
      (login_reply
         (selected "-password -refreshToken"
            (findById World.logged_in (Some "65a1")))
         (JStr "A.65a1.at-100") (JStr "R.65a1.at-100")) = JStr t.
Proof.
  destruct (login_stores_returned_refresh_token
              (World.at_ "at-100") World.login_alice World.users
              World.logged_in
              (login_reply
                 (selected "-password -refreshToken"
                    (findById World.logged_in (Some "65a1")))
                 (JStr "A.65a1.at-100") (JStr "R.65a1.at-100"))
              eq_refl)
    as (u & u' & t & Hu & Hu' & Ht & Hbody & _).
  injection Hu as <-.
  exists u', t. repeat split; assumption.
Defined.

(** C8.  The body of a successful login carries a view of the user that has
    neither a [password] nor a [refreshToken] key and keeps the other fields,
    together with the two tokens that were issued; the same two tokens are
    the values of the cookies [accessToken] and [refreshToken]. *)
Theorem login_reply_is_sanitized
    (env : Env) (req : LoginRequest) (st st' : Store) (resp : Response) :
  loginuser env req st = (Ok resp, st') ->
  exists u0 view a r,
    generateAccessToken env u0 = Ok a /\
    generateRefreshToken env u0 = Ok r /\
    status resp = 200 /\
    body_field "user" resp = JObj view /\
    has_key "password" view = false /\
    has_key "refreshToken" view = false /\
    prop "username" view = JStr (username u0) /\
    prop "email" view = JStr (email u0) /\
    body_field "accessToken" resp = JStr a /\
    body_field "refreshToken" resp = JStr r /\
    cookie_named "accessToken" (cookies resp) = Some (JStr a) /\
    cookie_named "refreshToken" (cookies resp) = Some (JStr r).
Proof.
  intros H.
  destruct (login_succeeds_inv _ _ _ _ _ H)
    as (u & u0 & a & r & _ & _ & _ & Ha & Hr & _ & _ & ->).
  exists u0, (select "-password -refreshToken"
                (toObject (set_refreshToken u0 (Some r)))), a, r.
  rewrite select_drops_secrets.
  repeat split; auto.
Qed.

Lemma login_reply_is_sanitized_witness :
  exists view,
    body_field "user"
      (login_reply
         (selected "-password -refreshToken"
            (findById World.logged_in (Some "65a1")))
         (JStr "A.65a1.at-100") (JStr "R.65a1.at-100")) = JObj view /\
    has_key "password" view = false /\
    has_key "refreshToken" view = false.
Proof.
  destruct (login_reply_is_sanitized
              (World.at_ "at-100") World.login_alice World.users
              World.logged_in
              (login_reply
                 (selected "-password -refreshToken"
                    (findById World.logged_in (Some "65a1")))
                 (JStr "A.65a1.at-100") (JStr "R.65a1.at-100"))
              eq_refl)
    as (u0 & view & a & r & _ & _ & _ & Hview & Hp & Hr & _).
  exists view. repeat split; assumption.
Defined.

(** ** Refresh *)

Lemma strict_neq_true (a : string) (b : option string) :
  strict_neq a b = true <-> b <> Some a.
Proof.
  destruct b as [s|]; simpl.
  - rewrite negb_true_iff, String.eqb_neq. split; congruence.
  - split; [discriminate | reflexivity].
Qed.

Lemma strict_neq_false (a : string) (b : option string) :
  strict_neq a b = false <-> b = Some a.
Proof.
  destruct b as [s|]; simpl.
  - rewrite negb_false_iff, String.eqb_eq. split; congruence.
  - split; discriminate.
Qed.

(** A token the library rejects never reaches the store: the handler fails
    with status 401 and the message of the library's error. *)
Lemma refresh_forwards_verify_error (env : Env) (req : RefreshRequest)
    (st : Store) (e : JsError) :
  let incoming := js_or (cookies_refreshToken req) (body_refreshToken req) in
  truthy incoming = true ->
  jwt_verify env (text_of incoming) (REFRESH_TOKEN_SECRET env) = Throw e ->
  refreshAccessToken env req st
  = (Throw (ApiError 401 (str_or (error_message e) "Invalid refresh token")),
     st).
Proof.
  intros incoming Hid Hv. rewrite refresh_cases. cbv zeta. fold incoming.
  now rewrite Hid, Hv.
Qed.

(** What a successful refresh has gone through. *)
Lemma refresh_succeeds_inv (env : Env) (req : RefreshRequest) (st st' : Store)
    (resp : Response) :
  refreshAccessToken env req st = (Ok resp, st') ->
  let incoming := js_or (cookies_refreshToken req) (body_refreshToken req) in
  exists payload u a r,
    truthy incoming = true /\
    jwt_verify env (text_of incoming) (REFRESH_TOKEN_SECRET env) = Ok payload /\
    db_fault env RefreshFindById = None /\
    findById st (sub_id payload) = Some u /\
    refreshToken u = Some (text_of incoming) /\
    generateAccessToken env u = Ok a /\
    generateRefreshToken env u = Ok r /\
    st' = save st (set_refreshToken u (Some r)) /\
    findById st' (sub_id payload) = Some (set_refreshToken u (Some r)) /\
    resp = refresh_reply (JStr a) JUndefined.
Proof.
  rewrite refresh_cases. cbv zeta.
  destruct (truthy _) eqn:Hid; [|discriminate]. simpl negb. cbv iota.
  destruct (jwt_verify env _ _) as [payload|e] eqn:Hv; [|discriminate].
  destruct (db_fault env RefreshFindById) eqn:Hdb; [discriminate|].
  destruct (findById st (sub_id payload)) as [u|] eqn:Hu; [|discriminate].
  destruct (strict_neq _ (refreshToken u)) eqn:Hneq; [discriminate|].
  apply strict_neq_false in Hneq.
  destruct (generateAccessAndRefereshTokens env (_id u) st)
    as [[tokens|e] st1] eqn:Hgen; [|discriminate].
  destruct (generate_returns _ _ _ _ _ Hgen)
    as (u0 & a & r & Hu0 & Ha & Hr & -> & ->).
  intros [= <- <-].
  destruct (sub_id payload) as [i|] eqn:Hsub;
    [|destruct st; discriminate].
  rewrite (findById_self _ _ _ Hu) in Hu0. injection Hu0 as <-.
  exists payload, u, a, r. rewrite Hsub.
  repeat split; auto.
  rewrite <- (findById_id _ _ _ Hu).
  apply findById_save. exact (findById_self _ _ _ Hu).
Qed.

(** Among the calls whose token verifies and whose subject resolves to a
    user, those that fail with "Refresh token is expired or used" are
    exactly those whose token is not the stored one. *)
Lemma refresh_reused_iff_not_stored (env : Env) (req : RefreshRequest)
    (st : Store) (payload : JwtPayload) (u : User) :
  let incoming := js_or (cookies_refreshToken req) (body_refreshToken req) in
  truthy incoming = true ->
  jwt_verify env (text_of incoming) (REFRESH_TOKEN_SECRET env) = Ok payload ->
  db_fault env RefreshFindById = None ->
  findById st (sub_id payload) = Some u ->
  (refreshToken u <> Some (text_of incoming) <->
   refreshAccessToken env req st
   = (Throw (ApiError 401 "Refresh token is expired or used"), st)).
Proof.
  intros incoming Hid Hv Hdb Hu.
  rewrite refresh_cases. cbv zeta. fold incoming.
  rewrite Hid, Hv, Hdb, Hu. simpl negb. cbv iota.
  split.
  - intros Hne. apply strict_neq_true in Hne. now rewrite Hne.
  - intros Hres Heq. apply strict_neq_false in Heq. rewrite Heq in Hres.
    destruct (generateAccessAndRefereshTokens env (_id u) st)
      as [[tokens|e] st1] eqn:Hgen; [discriminate|].
    destruct (generate_throws _ _ _ _ _ Hgen) as [-> _].
    discriminate.
Qed.

(** C1, as the specification states it, fails in its second half.  Alice
    holds [R.65a1.at-100] and refreshes at the very moment that token was
    issued: the generator mints the same string again, the refresh succeeds,
    the store is what it was, and a later refresh that presents the same
    token is accepted instead of failing with "Refresh token is expired or
    used". *)
Lemma refresh_replay_is_rejected_cex :
  let first := refreshAccessToken (World.at_ "at-100")
                 (World.present "R.65a1.at-100") World.logged_in in
  fst first = Ok (refresh_reply (JStr "A.65a1.at-100") JUndefined)
  /\ snd first = World.logged_in
  /\ fst (refreshAccessToken (World.at_ "at-101")
           (World.present "R.65a1.at-100") (snd first))
     = Ok (refresh_reply (JStr "A.65a1.at-101") JUndefined).
Proof. repeat split. Qed.

(** C1, amended.  Take a refresh call whose token passes [jwt.verify] and
    whose decoded subject resolves to a user.  The call fails with "Refresh
    token is expired or used" exactly when the presented token is not,
    character for character, the token stored for that user.  A successful
    refresh stores the refresh token it mints.  A second refresh that
    presents the same token (still verifying to the same payload) then fails
    with that error when the minted token differs from the presented one;
    when the generator minted the presented token again, the store is
    unchanged and the token is not rejected as used. *)
Theorem refresh_accepts_only_stored_token
    (env1 env2 : Env) (req : RefreshRequest) (st : Store)
    (payload : JwtPayload) (u : User) :
  let incoming := js_or (cookies_refreshToken req) (body_refreshToken req) in
  truthy incoming = true ->
  jwt_verify env1 (text_of incoming) (REFRESH_TOKEN_SECRET env1) = Ok payload ->
  db_fault env1 RefreshFindById = None ->
  findById st (sub_id payload) = Some u ->
  (refreshToken u <> Some (text_of incoming) <->
   refreshAccessToken env1 req st
   = (Throw (ApiError 401 "Refresh token is expired or used"), st))
  /\ (forall resp st',
      refreshAccessToken env1 req st = (Ok resp, st') ->
      jwt_verify env2 (text_of incoming) (REFRESH_TOKEN_SECRET env2)
      = Ok payload ->
      db_fault env2 RefreshFindById = None ->
      exists r,
        generateRefreshToken env1 u = Ok r /\
        findById st' (sub_id payload) = Some (set_refreshToken u (Some r)) /\
        (r <> text_of incoming ->
         refreshAccessToken env2 req st'
         = (Throw (ApiError 401 "Refresh token is expired or used"), st')) /\
        (r = text_of incoming ->
         st' = st /\
         refreshAccessToken env2 req st'
         <> (Throw (ApiError 401 "Refresh token is expired or used"), st'))).
Proof.
  intros incoming Hid Hv Hdb Hu.
  split; [exact (refresh_reused_iff_not_stored env1 req st payload u
                   Hid Hv Hdb Hu)|].
  intros resp st' Hok Hv2 Hdb2.
  destruct (refresh_succeeds_inv _ _ _ _ _ Hok)
    as (payload' & u' & a & r & _ & Hv' & _ & Hu' & Htok & _ & Hr & Hst'
        & Hfound & _).
  fold incoming in Hv', Htok. rewrite Hv in Hv'. injection Hv' as <-.
  rewrite Hu in Hu'. injection Hu' as <-.
  exists r. split; [exact Hr|]. split; [exact Hfound|].
  pose proof (refresh_reused_iff_not_stored env2 req st' payload
                (set_refreshToken u (Some r)) Hid Hv2 Hdb2 Hfound) as Hiff.
  fold incoming in Hiff. simpl refreshToken in Hiff.
  split.
  - intros Hne. apply Hiff. congruence.
  - intros ->. split.
    + rewrite Hst'. unfold save. apply updateOne_fixed. intros x Hx.
      simpl in *.
      destruct (sub_id payload) as [i|] eqn:Hsub;
        [|destruct st; discriminate].
      rewrite (findById_self _ _ _ Hu) in Hx. injection Hx as <-.
      rewrite <- Htok. apply set_refreshToken_same.
    + intros Hres. apply Hiff in Hres. now apply Hres.
Qed.

Lemma refresh_accepts_only_stored_token_witness :
  refreshAccessToken (World.at_ "at-300") (World.present "R.65a1.at-100")
    (snd (refreshAccessToken (World.at_ "at-200")
            (World.present "R.65a1.at-100") World.logged_in))
  = (Throw (ApiError 401 "Refresh token is expired or used"),
     snd (refreshAccessToken (World.at_ "at-200")
            (World.present "R.65a1.at-100") World.logged_in)).
Proof.
  destruct (proj2 (refresh_accepts_only_stored_token
                     (World.at_ "at-200") (World.at_ "at-300")
                     (World.present "R.65a1.at-100") World.logged_in
                     (mkPayload (Some "65a1"))
                     (set_refreshToken World.alice (Some "R.65a1.at-100"))
                     eq_refl eq_refl eq_refl eq_refl)
              (refresh_reply (JStr "A.65a1.at-200") JUndefined) _
              eq_refl eq_refl eq_refl)
    as (r & Hr & _ & Hchanged & _).
  injection Hr as <-. apply Hchanged. discriminate.
Defined.

(** Every successful refresh persists the freshly minted refresh token and
    returns the access token, but the [refreshToken] of its body and its
    [refreshToken] cookie are [undefined]: the handler reads the property
    [newRefreshToken] of an object whose properties are [accessToken] and
    [refreshToken]. *)
Lemma refresh_reply_has_no_refresh_token (env : Env) (req : RefreshRequest)
    (st st' : Store) (resp : Response) :
  refreshAccessToken env req st = (Ok resp, st') ->
  body_field "refreshToken" resp = JUndefined /\
  cookie_named "refreshToken" (cookies resp) = Some JUndefined /\
  exists u a r,
    generateAccessToken env u = Ok a /\
    generateRefreshToken env u = Ok r /\
    body_field "accessToken" resp = JStr a /\
    cookie_named "accessToken" (cookies resp) = Some (JStr a) /\
    findById st' (Some (_id u)) = Some (set_refreshToken u (Some r)).
Proof.
  intros H.
  destruct (refresh_succeeds_inv _ _ _ _ _ H)
    as (payload & u & a & r & _ & _ & _ & Hu & _ & Ha & Hr & _ & Hfound & ->).
  repeat split.
  exists u, a, r. repeat split; auto.
  destruct (sub_id payload) as [i|]; [|destruct st; discriminate].
  now rewrite (findById_id _ _ _ Hu).
Qed.

(** C3.  Alice, logged in with refresh token [R.65a1.at-100], presents that
    token.  The refresh succeeds, the new access token is in the body and in
    its cookie, and the new refresh token [R.65a1.at-200] is stored on her
    document; but the body's [refreshToken] and the [refreshToken] cookie are
    [undefined], not the new token. *)
Theorem refresh_reply_lacks_new_refresh_token :
  let outcome := refreshAccessToken (World.at_ "at-200")
                   (World.present "R.65a1.at-100") World.logged_in in
  exists resp,
    fst outcome = Ok resp /\
    body_field "accessToken" resp = JStr "A.65a1.at-200" /\
    cookie_named "accessToken" (cookies resp) = Some (JStr "A.65a1.at-200") /\
    option_map refreshToken (findById (snd outcome) (Some "65a1"))
    = Some (Some "R.65a1.at-200") /\
    body_field "refreshToken" resp = JUndefined /\
    cookie_named "refreshToken" (cookies resp) = Some JUndefined.
Proof.
  exists (refresh_reply (JStr "A.65a1.at-200") JUndefined).
  repeat split.
Qed.

(** ** Logout *)

(** Logout writes nothing: unless the database rejects the call it replies
    200 and leaves every document, stored refresh token included, as it
    was.  It is therefore no error to log out twice. *)
Lemma logout_changes_nothing (env : Env) (req : LogoutRequest) (st : Store) :
  db_fault env LogoutUpdate = None ->
  logOutUser env req st = (Ok logout_reply, st) /\
  logOutUser env req (snd (logOutUser env req st)) = (Ok logout_reply, st).
Proof.
  intros Hdb. rewrite !logout_cases, Hdb. split; reflexivity.
Qed.

(** C2.  Alice logs in and receives [R.65a1.at-100]; she logs out; the
    logout replies 200, yet her document still holds [R.65a1.at-100], and a
    refresh presenting that token afterwards succeeds instead of failing. *)
Theorem logout_keeps_refresh_token_valid :
  let after_logout :=
    logOutUser (World.at_ "at-150")
      (mkLogoutRequest (set_refreshToken World.alice (Some "R.65a1.at-100")))
      World.logged_in in
  fst after_logout = Ok logout_reply /\
  option_map refreshToken (findById (snd after_logout) (Some "65a1"))
  = Some (Some "R.65a1.at-100") /\
  fst (refreshAccessToken (World.at_ "at-200")
         (World.present "R.65a1.at-100") (snd after_logout))
  = Ok (refresh_reply (JStr "A.65a1.at-200") JUndefined).
Proof. repeat split. Qed.

(** ** Login failures *)

(** C7, as the specification states it, fails: a login for an unknown
    identity and a login with a wrong password are answered with different
    status codes and different messages. *)
Lemma login_failures_same_message_cex :
  loginuser (World.at_ "at-100") World.login_nobody World.users
  = (Throw (ApiError 404 "User does not exist"), World.users)
  /\ loginuser (World.at_ "at-100") World.login_alice_wrong World.users
     = (Throw (ApiError 401 "Invalid user credentials"), World.users)
  /\ error_message (ApiError 404 "User does not exist")
     <> error_message (ApiError 401 "Invalid user credentials")
  /\ error_status (ApiError 404 "User does not exist")
     <> error_status (ApiError 401 "Invalid user credentials").
Proof. repeat split; discriminate. Qed.

(** C7, amended.  With an identity in the request and the database
    answering, login fails with status 404 and message "User does not exist"
    when no user matches, and with status 401 and message "Invalid user
    credentials" when a user matches and the password does not verify; in
    both cases the store is untouched, and the two errors differ in status
    and in message. *)
Theorem login_failures_are_distinct
    (env : Env) (req : LoginRequest) (st : Store) :
  truthy (body_username req) || truthy (body_email req) = true ->
  db_fault env LoginFindOne = None ->
  (findOne st (body_username req) (body_email req) = None ->
   loginuser env req st = (Throw (ApiError 404 "User does not exist"), st))
  /\ (forall u,
      findOne st (body_username req) (body_email req) = Some u ->
      isPassWordCorrect env u (body_password req) = Ok false ->
      loginuser env req st
      = (Throw (ApiError 401 "Invalid user credentials"), st))
  /\ error_status (ApiError 404 "User does not exist")
     <> error_status (ApiError 401 "Invalid user credentials")
  /\ error_message (ApiError 404 "User does not exist")
     <> error_message (ApiError 401 "Invalid user credentials").
Proof.
  intros Hid Hdb. repeat split; try discriminate.
  - intros Hnone. now rewrite login_cases, Hid, Hdb, Hnone.
  - intros u Hu Hpw. now rewrite login_cases, Hid, Hdb, Hu, Hpw.
Qed.

Lemma login_failures_are_distinct_witness :
  loginuser (World.at_ "at-100") World.login_alice_wrong World.users
  = (Throw (ApiError 401 "Invalid user credentials"), World.users).
Proof.
  exact (proj1 (proj2 (login_failures_are_distinct
                         (World.at_ "at-100") World.login_alice_wrong
                         World.users eq_refl eq_refl))
           World.alice eq_refl eq_refl).
Defined.

(** C10.  The one check [loginuser] makes on its input is that a username or
    an email is present: without either the request is rejected with status
    400 whatever else it holds.  A request that names a user and has no
    password passes that check and reaches the password comparison, which is
    called with [undefined]: the outcome of the login is the outcome of that
    comparison (its error if it throws, 401 if it answers false, and the
    same as a login with an accepted password if it answers true). *)
Theorem login_without_password_reaches_comparison
    (env : Env) (req : LoginRequest) (st : Store) (u : User) :
  body_password req = None ->
  truthy (body_username req) || truthy (body_email req) = true ->
  db_fault env LoginFindOne = None ->
  findOne st (body_username req) (body_email req) = Some u ->
  (forall req',
      truthy (body_username req') || truthy (body_email req') = false ->
      loginuser env req' st
      = (Throw (ApiError 400 "Username or email is required"), st))
  /\ match isPassWordCorrect env u None with
     | Throw e => loginuser env req st = (Throw e, st)
     | Ok false =>
         loginuser env req st
         = (Throw (ApiError 401 "Invalid user credentials"), st)
     | Ok true =>
         forall p,
           isPassWordCorrect env u (Some p) = Ok true ->
           loginuser env req st
           = loginuser env
               (mkLoginRequest (body_username req) (body_email req) (Some p))
               st
     end.
Proof.
  intros Hpw Hid Hdb Hu. split.
  - intros req' Hnone. now rewrite login_cases, Hnone.
  - destruct (isPassWordCorrect env u None) as [[|]|e] eqn:Hcmp.
    + intros p Hp. rewrite !login_cases. simpl.
      now rewrite Hid, Hdb, Hu, Hpw, Hcmp, Hp.
    + now rewrite login_cases, Hid, Hdb, Hu, Hpw, Hcmp.
    + now rewrite login_cases, Hid, Hdb, Hu, Hpw, Hcmp.
Qed.

Lemma login_without_password_reaches_comparison_witness :
  loginuser (World.at_ "at-100") World.login_alice_no_password World.users
  = (Throw (LibError "Error" "data and hash arguments required"),
     World.users).
Proof.
  exact (proj2 (login_without_password_reaches_comparison
                  (World.at_ "at-100") World.login_alice_no_password
                  World.users World.alice eq_refl eq_refl eq_refl eq_refl)).
Defined.

(** ** Two refreshes at once *)

Lemma interleave_first (env1 env2 : Env) (rest : list Caller)
    (t1 t2 : RefreshTask) (st : Store) :
  interleave env1 env2 (First :: rest) t1 t2 st
  = interleave env1 env2 rest (fst (refresh_turn env1 t1 st)) t2
      (snd (refresh_turn env1 t1 st)).
Proof. simpl. now destruct (refresh_turn env1 t1 st). Qed.

Lemma interleave_second (env1 env2 : Env) (rest : list Caller)
    (t1 t2 : RefreshTask) (st : Store) :
  interleave env1 env2 (Second :: rest) t1 t2 st
  = interleave env1 env2 rest t1 (fst (refresh_turn env2 t2 st))
      (snd (refresh_turn env2 t2 st)).
Proof. simpl. now destruct (refresh_turn env2 t2 st). Qed.

Section OneCall.

Variables (env : Env) (req : RefreshRequest) (payload : JwtPayload)
          (u : User) (a r : string).

Let incoming := js_or (cookies_refreshToken req) (body_refreshToken req).

Hypothesis presented : truthy incoming = true.
Hypothesis verified :
  jwt_verify env (text_of incoming) (REFRESH_TOKEN_SECRET env) = Ok payload.
Hypothesis answering : forall place, db_fault env place = None.
Hypothesis current : refreshToken u = Some (text_of incoming).
Hypothesis access : generateAccessToken env u = Ok a.
Hypothesis fresh : generateRefreshToken env u = Ok r.

Lemma turn_started (st : Store) :
  refresh_turn env (Started req) st
  = (Looked (text_of incoming) (findById st (sub_id payload)), st).
Proof.
  unfold refresh_turn. fold incoming.
  now rewrite presented, verified, answering.
Qed.

(** The comparison looks at the document read one turn earlier. *)
Lemma turn_looked (st : Store) :
  refresh_turn env (Looked (text_of incoming) (Some u)) st
  = (GenLooked (findById st (Some (_id u))), st).
Proof.
  unfold refresh_turn.
  rewrite (proj2 (strict_neq_false _ _) current).
  now rewrite answering.
Qed.

(** The write happens whatever the store holds by then. *)
Lemma turn_gen_looked (st : Store) :
  refresh_turn env (GenLooked (Some u)) st
  = (Saved a r, save st (set_refreshToken u (Some r))).
Proof.
  unfold refresh_turn. now rewrite access, fresh, answering.
Qed.

Lemma turn_saved (st : Store) :
  refresh_turn env (Saved a r) st
  = (Finished (Ok (refresh_reply (JStr a) JUndefined)), st).
Proof. reflexivity. Qed.

End OneCall.

Lemma save_save (st : Store) (u : User) (t1 t2 : option string) :
  findById st (Some (_id u)) = Some u ->
  findById (save (save st (set_refreshToken u t1)) (set_refreshToken u t2))
    (Some (_id u))
  = Some (set_refreshToken u t2).
Proof.
  intros H.
  pose proof (findById_save st u t1 H) as H1.
  unfold save at 1. simpl.
  exact (findById_updateOne _ (_id u) (fun x => set_refreshToken x t2) _
           (fun _ => eq_refl) H1).
Qed.

(** C5, as the specification states it, fails.  Two refreshes present
    alice's current token [R.65a1.at-100] and take turns; both pass the
    comparison before either saves.  Both succeed; neither receives "Refresh
    token is expired or used"; the second write lands on a document whose
    stored token, [R.65a1.at-200] by then, is no longer the presented one. *)
Lemma rotation_write_is_conditional_cex :
  interleave (World.at_ "at-200") (World.at_ "at-201") lockstep
    (Started (World.present "R.65a1.at-100"))
    (Started (World.present "R.65a1.at-100")) World.logged_in
  = (Finished (Ok (refresh_reply (JStr "A.65a1.at-200") JUndefined)),
     Finished (Ok (refresh_reply (JStr "A.65a1.at-201") JUndefined)),
     [set_refreshToken World.alice (Some "R.65a1.at-201"); World.bob])
  /\ option_map refreshToken
       (findById
          (snd (interleave (World.at_ "at-200") (World.at_ "at-201")
                  [First; Second; First; Second; First]
                  (Started (World.present "R.65a1.at-100"))
                  (Started (World.present "R.65a1.at-100")) World.logged_in))
          (Some "65a1"))
     = Some (Some "R.65a1.at-200").
Proof. split; reflexivity. Qed.

(** The six ways to give two callers two turns each. *)
Lemma two_each_cases (l : list Caller) :
  two_each l = true ->
  l = [First; First; Second; Second] \/ l = [First; Second; First; Second]
  \/ l = [First; Second; Second; First] \/ l = [Second; First; First; Second]
  \/ l = [Second; First; Second; First] \/ l = [Second; Second; First; First].
Proof.
  destruct l as [|c1 [|c2 [|c3 [|c4 [|c5 rest]]]]].
  - discriminate.
  - destruct c1; discriminate.
  - destruct c1, c2; discriminate.
  - destruct c1, c2, c3; discriminate.
  - destruct c1, c2, c3, c4; try discriminate; tauto.
  - unfold two_each. intros H. exfalso.
    apply andb_true_iff in H. destruct H as [H1 H2].
    apply Nat.eqb_eq in H1. apply Nat.eqb_eq in H2.
    assert (Hlen : forall l', (turns_of First l' + turns_of Second l'
                               = length l')%nat).
    { induction l' as [|c l' IH]; [reflexivity|].
      destruct c; simpl; rewrite <- IH; lia. }
    specialize (Hlen (c1 :: c2 :: c3 :: c4 :: c5 :: rest)).
    rewrite H1, H2 in Hlen. simpl in Hlen. lia.
Qed.

Section TwoCalls.

Variables (env1 env2 : Env) (req : RefreshRequest) (st : Store)
          (payload : JwtPayload) (u : User) (a1 r1 a2 r2 : string).

Let incoming := js_or (cookies_refreshToken req) (body_refreshToken req).

Hypothesis presented : truthy incoming = true.
Hypothesis verified1 :
  jwt_verify env1 (text_of incoming) (REFRESH_TOKEN_SECRET env1) = Ok payload.
Hypothesis verified2 :
  jwt_verify env2 (text_of incoming) (REFRESH_TOKEN_SECRET env2) = Ok payload.
Hypothesis answering1 : forall place, db_fault env1 place = None.
Hypothesis answering2 : forall place, db_fault env2 place = None.
Hypothesis resolves : findById st (sub_id payload) = Some u.
Hypothesis current : refreshToken u = Some (text_of incoming).
Hypothesis access1 : generateAccessToken env1 u = Ok a1.
Hypothesis fresh1 : generateRefreshToken env1 u = Ok r1.
Hypothesis access2 : generateAccessToken env2 u = Ok a2.
Hypothesis fresh2 : generateRefreshToken env2 u = Ok r2.

Lemma resolves_by_id : findById st (Some (_id u)) = Some u.
Proof.
  destruct (sub_id payload) as [i|]; [|destruct st; discriminate].
  exact (findById_self _ _ _ resolves).
Qed.

Ltac run_turns :=
  repeat (first [rewrite interleave_first | rewrite interleave_second];
          first
            [ rewrite (turn_started env1 req payload presented verified1
                         answering1)
            | rewrite (turn_started env2 req payload presented verified2
                         answering2)
            | rewrite (turn_looked env1 req u answering1 current)
            | rewrite (turn_looked env2 req u answering2 current)
            | rewrite (turn_gen_looked env1 u a1 r1 answering1 access1 fresh1)
            | rewrite (turn_gen_looked env2 u a2 r2 answering2 access2 fresh2)
            | rewrite turn_saved ];
          cbn [fst snd]; fold incoming;
          rewrite ?resolves, ?resolves_by_id).

(** While both calls read and compare, the store stays as it is, and each
    call ends up holding the document it will mint from. *)
Lemma both_compared (early late : list Caller) :
  two_each early = true ->
  interleave env1 env2 (early ++ late) (Started req) (Started req) st
  = interleave env1 env2 late (GenLooked (Some u)) (GenLooked (Some u)) st.
Proof.
  intros H.
  destruct (two_each_cases early H) as [-> | [-> | [-> | [-> | [-> | ->]]]]];
    cbn [app]; run_turns; reflexivity.
Qed.

(** Both calls save and reply; the second save overwrites the first. *)
Lemma both_saved (late : list Caller) :
  two_each late = true ->
  interleave env1 env2 late (GenLooked (Some u)) (GenLooked (Some u)) st
  = (Finished (Ok (refresh_reply (JStr a1) JUndefined)),
     Finished (Ok (refresh_reply (JStr a2) JUndefined)),
     match saves_last late with
     | Second =>
         save (save st (set_refreshToken u (Some r1)))
              (set_refreshToken u (Some r2))
     | First =>
         save (save st (set_refreshToken u (Some r2)))
              (set_refreshToken u (Some r1))
     end).
Proof.
  intros H.
  destruct (two_each_cases late H) as [-> | [-> | [-> | [-> | [-> | ->]]]]];
    run_turns; reflexivity.
Qed.

(** C5, amended.  The write that rotates the refresh token is unconditional:
    the turn that saves writes the new token whatever the store holds at
    that moment.  The presented token is compared once, with the document
    read before the tokens are minted.  So when two refreshes present the
    same current token, the database answers, the tokens are minted, and
    both calls are compared before either saves, then in whatever order
    their turns are taken both succeed, and the refresh token of the call
    that saves last is the one that stays stored. *)
Theorem concurrent_refreshes_both_succeed (early late : list Caller) :
  two_each early = true ->
  two_each late = true ->
  (forall st0,
      refresh_turn env1 (GenLooked (Some u)) st0
      = (Saved a1 r1, save st0 (set_refreshToken u (Some r1)))
      /\ refresh_turn env2 (GenLooked (Some u)) st0
         = (Saved a2 r2, save st0 (set_refreshToken u (Some r2))))
  /\ exists st',
      interleave env1 env2 (early ++ late) (Started req) (Started req) st
      = (Finished (Ok (refresh_reply (JStr a1) JUndefined)),
         Finished (Ok (refresh_reply (JStr a2) JUndefined)), st')
      /\ findById st' (sub_id payload)
         = Some (set_refreshToken u
                   (Some match saves_last late with
                         | First => r1
                         | Second => r2
                         end)).
Proof.
  intros Hearly Hlate. split.
  - intros st0. split; now apply turn_gen_looked.
  - rewrite (both_compared early late Hearly), (both_saved late Hlate).
    eexists. split; [reflexivity|].
    pose proof resolves_by_id as Hself.
    assert (Hid : sub_id payload = Some (_id u)).
    { destruct (sub_id payload) as [i|] eqn:Hsub;
        [|destruct st; discriminate].
      now rewrite (findById_id _ _ _ resolves). }
    rewrite Hid.
    destruct (saves_last late); now apply save_save.
Qed.

End TwoCalls.

Lemma concurrent_refreshes_both_succeed_witness :
  exists st',
    interleave (World.at_ "at-200") (World.at_ "at-201")
      ([First; Second; First; Second] ++ [Second; First; Second; First])
      (Started (World.present "R.65a1.at-100"))
      (Started (World.present "R.65a1.at-100")) World.logged_in
    = (Finished (Ok (refresh_reply (JStr "A.65a1.at-200") JUndefined)),
       Finished (Ok (refresh_reply (JStr "A.65a1.at-201") JUndefined)), st')
    /\ findById st' (Some "65a1")
       = Some (set_refreshToken
                 (set_refreshToken World.alice (Some "R.65a1.at-100"))
                 (Some "R.65a1.at-200")).
Proof.
  exact (proj2 (concurrent_refreshes_both_succeed
                  (World.at_ "at-200") (World.at_ "at-201")
                  (World.present "R.65a1.at-100") World.logged_in
                  (mkPayload (Some "65a1"))
                  (set_refreshToken World.alice (Some "R.65a1.at-100"))
                  "A.65a1.at-200" "R.65a1.at-200"
                  "A.65a1.at-201" "R.65a1.at-201"
                  eq_refl eq_refl eq_refl
                  (fun _ => eq_refl) (fun _ => eq_refl)
                  eq_refl eq_refl eq_refl eq_refl eq_refl eq_refl
                  [First; Second; First; Second]
                  [Second; First; Second; First] eq_refl eq_refl)).
Defined.

(** * Further properties of the session handlers *)

Lemma findById_updateOne_other (st : Store) (i j : UserId) (f : User -> User) :
  i <> j ->
  (forall x, _id (f x) = _id x) ->
  findById (updateOne st j f) (Some i) = findById st (Some i).
Proof.
  intros Hij Hf. induction st as [|d rest IH]; simpl; [reflexivity|].
  destruct (String.eqb (_id d) j) eqn:Ej; simpl.
  - rewrite Hf. apply String.eqb_eq in Ej.
    destruct (String.eqb (_id d) i) eqn:Ei; [|reflexivity].
    apply String.eqb_eq in Ei. congruence.
  - now rewrite IH.
Qed.

Lemma map_updateOne_token (st : Store) (j : UserId) (t : option string) :
  map (fun u => set_refreshToken u None)
      (updateOne st j (fun x => set_refreshToken x t))
  = map (fun u => set_refreshToken u None) st.
Proof.
  induction st as [|d rest IH]; simpl; [reflexivity|].
  destruct (String.eqb (_id d) j); simpl; [reflexivity|].
  now rewrite IH.
Qed.

(** The store after a call of the token generator: as before, or with one
    refresh token written. *)
Lemma generate_store (env : Env) (userId : UserId) (st : Store) :
  snd (generateAccessAndRefereshTokens env userId st) = st
  \/ exists u r,
       findById st (Some userId) = Some u /\
       generateRefreshToken env u = Ok r /\
       snd (generateAccessAndRefereshTokens env userId st)
       = save st (set_refreshToken u (Some r)).
Proof.
  rewrite generate_cases.
  destruct (db_fault env GenFindById); [now left|].
  destruct (findById st (Some userId)) as [u|] eqn:Hu; [|now left].
  destruct (generateAccessToken env u); [|now left].
  destruct (generateRefreshToken env u) as [r|] eqn:Hr; [|now left].
  destruct (db_fault env GenSave); [now left|].
  right. now exists u, r.
Qed.

(** X1.  [refreshAccessToken] takes the token from the cookie when the
    cookie holds a non-empty string and from the body otherwise; the other
    source is then not looked at.  With neither, it fails with 401
    "Unauthorized request" whatever the token library and the database would
    answer. *)
Theorem refresh_reads_cookie_before_body
    (env : Env) (cookie body : option string) (st : Store) :
  (truthy cookie = true ->
   refreshAccessToken env (mkRefreshRequest cookie body) st
   = refreshAccessToken env (mkRefreshRequest cookie None) st)
  /\ (truthy cookie = false ->
      refreshAccessToken env (mkRefreshRequest cookie body) st
      = refreshAccessToken env (mkRefreshRequest None body) st)
  /\ (truthy cookie = false -> truthy body = false ->
      refreshAccessToken env (mkRefreshRequest cookie body) st
      = (Throw (ApiError 401 "Unauthorized request"), st)).
Proof.
  unfold refreshAccessToken, js_or. simpl.
  repeat split; intros H; try intros H'; rewrite H; try reflexivity.
  now rewrite H'.
Qed.

Lemma refresh_reads_cookie_before_body_witness :
  refreshAccessToken (World.at_ "at-200")
    (mkRefreshRequest (Some "") (Some "R.65a1.at-100")) World.logged_in
  = refreshAccessToken (World.at_ "at-200")
      (mkRefreshRequest None (Some "R.65a1.at-100")) World.logged_in
  /\ refreshAccessToken (World.at_ "at-200")
       (mkRefreshRequest (Some "R.65a1.at-100") (Some "garbage"))
       World.logged_in
     = refreshAccessToken (World.at_ "at-200")
         (mkRefreshRequest (Some "R.65a1.at-100") None) World.logged_in.
Proof.
  split.
  - exact (proj1 (proj2 (refresh_reads_cookie_before_body
                           (World.at_ "at-200") (Some "")
                           (Some "R.65a1.at-100") World.logged_in)) eq_refl).
  - exact (proj1 (refresh_reads_cookie_before_body
                    (World.at_ "at-200") (Some "R.65a1.at-100")
                    (Some "garbage") World.logged_in) eq_refl).
Defined.

(** X2.  Whatever makes [refreshAccessToken] fail (no token, a token the
    library rejects, an unknown subject, a stale token, a database error, a
    failed token generation), the error is an [ApiError] with status 401,
    and the store is as it was before the call. *)
Theorem refresh_fails_with_401_and_writes_nothing
    (env : Env) (req : RefreshRequest) (st st' : Store) (e : JsError) :
  refreshAccessToken env req st = (Throw e, st') ->
  error_status e = Some 401 /\ st' = st.
Proof.
  rewrite refresh_cases. cbv zeta.
  destruct (negb _); [now intros [= <- <-]|].
  destruct (jwt_verify env _ _) as [payload|e0]; [|now intros [= <- <-]].
  destruct (db_fault env RefreshFindById); [now intros [= <- <-]|].
  destruct (findById st (sub_id payload)) as [u|]; [|now intros [= <- <-]].
  destruct (strict_neq _ (refreshToken u)); [now intros [= <- <-]|].
  destruct (generateAccessAndRefereshTokens env (_id u) st)
    as [[tokens|e1] st1] eqn:Hgen; [discriminate|].
  destruct (generate_throws _ _ _ _ _ Hgen) as [-> ->].
  now intros [= <- <-].
Qed.

Lemma refresh_fails_with_401_and_writes_nothing_witness :
  error_status (ApiError 401 "jwt malformed") = Some 401
  /\ World.logged_in = World.logged_in.
Proof.
  exact (refresh_fails_with_401_and_writes_nothing
           (World.at_ "at-200") (World.present "garbage")
           World.logged_in World.logged_in (ApiError 401 "jwt malformed")
           eq_refl).
Defined.

(** X3.  A verified token whose payload has no [_id], or whose [_id] names
    no stored user, is answered with 401 "Invalid refresh token"; the store
    is not written. *)
Theorem refresh_unknown_subject_is_invalid
    (env : Env) (req : RefreshRequest) (st : Store) (payload : JwtPayload) :
  let incoming := js_or (cookies_refreshToken req) (body_refreshToken req) in
  truthy incoming = true ->
  jwt_verify env (text_of incoming) (REFRESH_TOKEN_SECRET env) = Ok payload ->
  db_fault env RefreshFindById = None ->
  sub_id payload = None \/ findById st (sub_id payload) = None ->
  refreshAccessToken env req st
  = (Throw (ApiError 401 "Invalid refresh token"), st).
Proof.
  intros incoming Hid Hv Hdb Hnone.
  assert (H : findById st (sub_id payload) = None).
  { destruct Hnone as [-> | H]; [now destruct st | exact H]. }
  rewrite refresh_cases. cbv zeta. fold incoming.
  now rewrite Hid, Hv, Hdb, H.
Qed.

Lemma refresh_unknown_subject_is_invalid_witness :
  refreshAccessToken (World.at_ "at-200") (World.present "R.gone.at-100")
    World.logged_in
  = (Throw (ApiError 401 "Invalid refresh token"), World.logged_in).
Proof.
  exact (refresh_unknown_subject_is_invalid
           (World.at_ "at-200") (World.present "R.gone.at-100")
           World.logged_in (mkPayload (Some "gone"))
           eq_refl eq_refl eq_refl (or_intror eq_refl)).
Defined.

(** X4.  A login that fails has written nothing, with one exception: when
    the database rejects the last lookup (the one that fetches the user for
    the reply), the new refresh token has already replaced the stored one,
    so the login fails and the user's previous refresh token is gone. *)
Theorem login_failure_and_the_store
    (env : Env) (req : LoginRequest) (st st' : Store) (e : JsError) :
  loginuser env req st = (Throw e, st') ->
  st' = st
  \/ (db_fault env LoginFindById = Some e /\
      exists u u0 r,
        findOne st (body_username req) (body_email req) = Some u /\
        findById st (Some (_id u)) = Some u0 /\
        generateRefreshToken env u0 = Ok r /\
        st' = save st (set_refreshToken u0 (Some r)) /\
        findById st' (Some (_id u)) = Some (set_refreshToken u0 (Some r))).
Proof.
  rewrite login_cases.
  destruct (negb _); [intros [= <- <-]; now left|].
  destruct (db_fault env LoginFindOne); [intros [= <- <-]; now left|].
  destruct (findOne st _ _) as [u|]; [|intros [= <- <-]; now left].
  destruct (isPassWordCorrect env u _) as [[|]|];
    try (intros [= <- <-]; now left).
  destruct (generateAccessAndRefereshTokens env (_id u) st)
    as [[tokens|e1] st1] eqn:Hgen.
  - destruct (generate_returns _ _ _ _ _ Hgen)
      as (u0 & a & r & Hu0 & Ha & Hr & -> & ->).
    destruct (db_fault env LoginFindById) eqn:Hdb; [|discriminate].
    intros [= <- <-]. right. split; [reflexivity|].
    exists u, u0, r. repeat split; auto.
    rewrite <- (findById_id _ _ _ Hu0).
    apply findById_save. exact (findById_self _ _ _ Hu0).
  - destruct (generate_throws _ _ _ _ _ Hgen) as [-> ->].
    intros [= <- <-]. now left.
Qed.

Lemma login_failure_and_the_store_witness :
  let st' := [World.alice; set_refreshToken World.bob (Some "R.65b2.at-100")] in
  st' = World.users
  \/ (db_fault Outage.flaky LoginFindById
      = Some (LibError "MongoNetworkError" "connection lost") /\
      exists u u0 r,
        findOne World.users (body_username Outage.login_bob)
          (body_email Outage.login_bob) = Some u /\
        findById World.users (Some (_id u)) = Some u0 /\
        generateRefreshToken Outage.flaky u0 = Ok r /\
        st' = save World.users (set_refreshToken u0 (Some r)) /\
        findById st' (Some (_id u)) = Some (set_refreshToken u0 (Some r))).
Proof.
  exact (login_failure_and_the_store Outage.flaky Outage.login_bob World.users
           [World.alice; set_refreshToken World.bob (Some "R.65b2.at-100")]
           (LibError "MongoNetworkError" "connection lost") eq_refl).
Defined.

(** X5.  Whatever their outcome, login, logout and refresh change nothing
    in the store but refresh tokens: the documents are the same ones, in the
    same order, with the same identifiers, names, emails, media and password
    hashes. *)
Theorem handlers_only_touch_refresh_tokens
    (env : Env) (st : Store) :
  let identity := map (fun u => set_refreshToken u None) in
  (forall req, identity (snd (loginuser env req st)) = identity st)
  /\ (forall req, identity (snd (logOutUser env req st)) = identity st)
  /\ (forall req, identity (snd (refreshAccessToken env req st)) = identity st).
Proof.
  cbv zeta.
  assert (Hgen : forall userId,
             map (fun u => set_refreshToken u None)
                 (snd (generateAccessAndRefereshTokens env userId st))
             = map (fun u => set_refreshToken u None) st).
  { intros userId.
    destruct (generate_store env userId st) as [-> | (u & r & _ & _ & ->)];
      [reflexivity|].
    apply map_updateOne_token. }
  repeat split; intros req.
  - rewrite login_cases.
    destruct (negb _); [reflexivity|].
    destruct (db_fault env LoginFindOne); [reflexivity|].
    destruct (findOne st _ _) as [u|]; [|reflexivity].
    destruct (isPassWordCorrect env u _) as [[|]|]; try reflexivity.
    specialize (Hgen (_id u)).
    destruct (generateAccessAndRefereshTokens env (_id u) st)
      as [[tokens|e1] st1]; [|exact Hgen].
    destruct (db_fault env LoginFindById); exact Hgen.
  - rewrite logout_cases. now destruct (db_fault env LogoutUpdate).
  - rewrite refresh_cases. cbv zeta.
    destruct (negb _); [reflexivity|].
    destruct (jwt_verify env _ _) as [payload|e0]; [|reflexivity].
    destruct (db_fault env RefreshFindById); [reflexivity|].
    destruct (findById st (sub_id payload)) as [u|]; [|reflexivity].
    destruct (strict_neq _ (refreshToken u)); [reflexivity|].
    specialize (Hgen (_id u)).
    destruct (generateAccessAndRefereshTokens env (_id u) st)
      as [[tokens|e1] st1]; exact Hgen.
Qed.

(** X6.  A login writes to the document of the user it matched and to no
    other, and a refresh to the document of the token's subject and to no
    other: every other user's document, refresh token included, reads the
    same after the call, whatever the outcome. *)
Theorem other_users_are_untouched
    (env : Env) (st : Store) (other : UserId) :
  (forall req u,
      findOne st (body_username req) (body_email req) = Some u ->
      other <> _id u ->
      findById (snd (loginuser env req st)) (Some other)
      = findById st (Some other))
  /\ (forall req payload,
      jwt_verify env
        (text_of (js_or (cookies_refreshToken req) (body_refreshToken req)))
        (REFRESH_TOKEN_SECRET env) = Ok payload ->
      sub_id payload <> Some other ->
      findById (snd (refreshAccessToken env req st)) (Some other)
      = findById st (Some other)).
Proof.
  assert (Hgen : forall userId,
             other <> userId ->
             findById (snd (generateAccessAndRefereshTokens env userId st))
               (Some other)
             = findById st (Some other)).
  { intros userId Hne.
    destruct (generate_store env userId st) as [-> | (u & r & Hu & _ & ->)];
      [reflexivity|].
    unfold save. simpl. rewrite (findById_id _ _ _ Hu).
    now apply findById_updateOne_other. }
  split.
  - intros req u Hu Hne. rewrite login_cases, Hu.
    destruct (negb _); [reflexivity|].
    destruct (db_fault env LoginFindOne); [reflexivity|].
    destruct (isPassWordCorrect env u _) as [[|]|]; try reflexivity.
    specialize (Hgen (_id u) Hne).
    destruct (generateAccessAndRefereshTokens env (_id u) st)
      as [[tokens|e1] st1]; [|exact Hgen].
    destruct (db_fault env LoginFindById); exact Hgen.
  - intros req payload Hv Hne. rewrite refresh_cases. cbv zeta. rewrite Hv.
    destruct (negb _); [reflexivity|].
    destruct (db_fault env RefreshFindById); [reflexivity|].
    destruct (findById st (sub_id payload)) as [u|] eqn:Hu; [|reflexivity].
    destruct (strict_neq _ (refreshToken u)); [reflexivity|].
    assert (Hne' : other <> _id u).
    { destruct (sub_id payload) as [i|]; [|destruct st; discriminate].
      rewrite (findById_id _ _ _ Hu). congruence. }
    specialize (Hgen (_id u) Hne').
    destruct (generateAccessAndRefereshTokens env (_id u) st)
      as [[tokens|e1] st1]; exact Hgen.
Qed.

Lemma other_users_are_untouched_witness :
  findById (snd (loginuser (World.at_ "at-100") World.login_alice World.users))
    (Some "65b2")
  = findById World.users (Some "65b2").
Proof.
  refine (proj1 (other_users_are_untouched
                   (World.at_ "at-100") World.users "65b2")
            World.login_alice World.alice eq_refl _).
  discriminate.
Defined.

Lemma truthy_nonempty (t : string) : t <> "" -> truthy (Some t) = true.
Proof.
  intros Ht. simpl. apply negb_true_iff. now apply String.eqb_neq.
Qed.

(** The handler on a request whose cookie holds a non-empty token. *)
Lemma refresh_cases_cookie (env : Env) (t : string) (body : option string)
    (st : Store) :
  t <> "" ->
  refreshAccessToken env (mkRefreshRequest (Some t) body) st =
  match jwt_verify env t (REFRESH_TOKEN_SECRET env) with
  | Throw e => (Throw (refresh_catch e), st)
  | Ok decoded =>
      match db_fault env RefreshFindById with
      | Some e => (Throw (refresh_catch e), st)
      | None =>
          match findById st (sub_id decoded) with
          | None =>
              (Throw (refresh_catch (ApiError 401 "Invalid refresh token")),
               st)
          | Some u =>
              if strict_neq t (refreshToken u)
              then (Throw (refresh_catch
                      (ApiError 401 "Refresh token is expired or used")), st)
              else
                match generateAccessAndRefereshTokens env (_id u) st with
                | (Throw e, st') => (Throw (refresh_catch e), st')
                | (Ok tokens, st') =>
                    (Ok (refresh_reply (prop "accessToken" tokens)
                           (prop "newRefreshToken" tokens)), st')
                end
          end
      end
  end.
Proof.
  intros Ht. rewrite refresh_cases. cbv zeta.
  assert (Hinc : js_or (cookies_refreshToken (mkRefreshRequest (Some t) body))
                   (body_refreshToken (mkRefreshRequest (Some t) body))
                 = Some t).
  { unfold js_or. cbn [cookies_refreshToken]. now rewrite truthy_nonempty. }
  rewrite Hinc, truthy_nonempty by exact Ht. reflexivity.
Qed.

(** X7.  The refresh token a login returns can be used.  When the token
    (a non-empty string) later verifies to the user who logged in, the
    database answers and the new tokens can be minted, a refresh presenting
    it succeeds and stores the newly minted refresh token in its place. *)
Theorem login_then_refresh_succeeds
    (env1 env2 : Env) (req : LoginRequest) (st st1 : Store) (resp : Response)
    (u u' : User) (t a2 r2 : string) (payload : JwtPayload) :
  loginuser env1 req st = (Ok resp, st1) ->
  cookie_named "refreshToken" (cookies resp) = Some (JStr t) ->
  t <> "" ->
  findOne st (body_username req) (body_email req) = Some u ->
  findById st1 (Some (_id u)) = Some u' ->
  jwt_verify env2 t (REFRESH_TOKEN_SECRET env2) = Ok payload ->
  sub_id payload = Some (_id u) ->
  (forall place, db_fault env2 place = None) ->
  generateAccessToken env2 u' = Ok a2 ->
  generateRefreshToken env2 u' = Ok r2 ->
  refreshAccessToken env2 (mkRefreshRequest (Some t) None) st1
  = (Ok (refresh_reply (JStr a2) JUndefined),
     save st1 (set_refreshToken u' (Some r2)))
  /\ findById (save st1 (set_refreshToken u' (Some r2))) (Some (_id u))
     = Some (set_refreshToken u' (Some r2)).
Proof.
  intros Hlogin Hcookie Ht Hu Hu' Hv Hsub Hdb Ha Hr.
  destruct (login_succeeds_inv _ _ _ _ _ Hlogin)
    as (v & u0 & a & r & Hv0 & _ & _ & _ & _ & _ & Hfound & ->).
  rewrite Hu in Hv0. injection Hv0 as <-.
  rewrite Hu' in Hfound. injection Hfound as ->.
  simpl in Hcookie. injection Hcookie as <-.
  assert (Hself : findById st1 (Some (_id (set_refreshToken u0 (Some r))))
                  = Some (set_refreshToken u0 (Some r))).
  { exact (findById_self _ _ _ Hu'). }
  split.
  - rewrite refresh_cases_cookie by exact Ht.
    rewrite Hv, Hdb, Hsub, Hu'.
    assert (Heq : strict_neq r (refreshToken (set_refreshToken u0 (Some r)))
                  = false).
    { now apply strict_neq_false. }
    rewrite Heq.
    rewrite generate_cases, Hdb, Hself, Ha, Hr, Hdb. reflexivity.
  - rewrite <- (findById_id _ _ _ Hu').
    apply (findById_save st1 (set_refreshToken u0 (Some r)) (Some r2) Hself).
Qed.

Lemma login_then_refresh_succeeds_witness :
  refreshAccessToken (World.at_ "at-200")
    (mkRefreshRequest (Some "R.65a1.at-100") None) World.logged_in
  = (Ok (refresh_reply (JStr "A.65a1.at-200") JUndefined),
     save World.logged_in
       (set_refreshToken
          (set_refreshToken World.alice (Some "R.65a1.at-100"))
          (Some "R.65a1.at-200"))).
Proof.
  refine (proj1 (login_then_refresh_succeeds
                   (World.at_ "at-100") (World.at_ "at-200")
                   World.login_alice World.users World.logged_in
                   (login_reply
                      (selected "-password -refreshToken"
                         (findById World.logged_in (Some "65a1")))
                      (JStr "A.65a1.at-100") (JStr "R.65a1.at-100"))
                   World.alice
                   (set_refreshToken World.alice (Some "R.65a1.at-100"))
                   "R.65a1.at-100" "A.65a1.at-200" "R.65a1.at-200"
                   (mkPayload (Some "65a1"))
                   eq_refl eq_refl _ eq_refl eq_refl eq_refl eq_refl
                   (fun _ => eq_refl) eq_refl eq_refl)).
  discriminate.
Defined.



(** * Uploads and registration *)

Lemma mem_without_same (p : string) (disk : Disk) :
  mem p (without p disk) = false.
Proof.
  unfold mem, without. induction disk as [|q rest IH]; simpl; [reflexivity|].
  destruct (String.eqb q p) eqn:E; simpl; [exact IH|].
  rewrite String.eqb_sym, E. exact IH.
Qed.

Lemma mem_without_other (p q : string) (disk : Disk) :
  q <> p -> mem q (without p disk) = mem q disk.
Proof.
  intros Hne. unfold mem, without.
  induction disk as [|d rest IH]; simpl; [reflexivity|].
  destruct (String.eqb d p) eqn:E; simpl.
  - apply String.eqb_eq in E. subst d.
    apply String.eqb_neq in Hne. now rewrite Hne.
  - now rewrite IH.
Qed.

Lemma upload_cases (renv : RegEnv) (p : option string) (disk : Disk) :
  uploadOnCloudinary renv p disk =
  if existsSync p disk
  then match upload renv (text_of p) with
       | Ok response => (Ok (Some response), without (text_of p) disk)
       | Throw e => (Throw e, without (text_of p) disk)
       end
  else (Ok None, disk).
Proof.
  unfold uploadOnCloudinary, attempt, then_, sync, unit_, raise, unlinkSync.
  destruct p as [f|]; simpl; [|reflexivity].
  destruct (mem f disk) eqn:Hmem; simpl; [|reflexivity].
  destruct (upload renv f); rewrite ?Hmem; reflexivity.
Qed.

(** X9.  [uploadOnCloudinary] does not fail for a file that is not there:
    for a path with no file on the disk, and for no path at all, it returns
    [null] without asking the media host, and leaves the disk as it is. *)
Theorem upload_of_missing_file_is_null
    (renv1 renv2 : RegEnv) (p : option string) (disk : Disk) :
  existsSync p disk = false ->
  uploadOnCloudinary renv1 p disk = (Ok None, disk)
  /\ uploadOnCloudinary renv1 p disk = uploadOnCloudinary renv2 p disk.
Proof. intros H. now rewrite !upload_cases, H. Qed.

Lemma upload_of_missing_file_is_null_witness :
  uploadOnCloudinary Signup.office None ["tmp/a1.png"]
  = (Ok None, ["tmp/a1.png"]).
Proof.
  exact (proj1 (upload_of_missing_file_is_null Signup.office Signup.office
                  None ["tmp/a1.png"] eq_refl)).
Defined.

(** X10.  For a file that exists, [uploadOnCloudinary] hands the path to the
    media host and gives back the host's answer, or rethrows the host's own
    error; either way the local file is deleted, and no other file is. *)
Theorem upload_deletes_the_local_file
    (renv : RegEnv) (p : string) (disk : Disk) :
  mem p disk = true ->
  fst (uploadOnCloudinary renv (Some p) disk)
  = match upload renv p with
    | Ok response => Ok (Some response)
    | Throw e => Throw e
    end
  /\ mem p (snd (uploadOnCloudinary renv (Some p) disk)) = false
  /\ (forall q, q <> p ->
      mem q (snd (uploadOnCloudinary renv (Some p) disk)) = mem q disk).
Proof.
  intros Hmem. rewrite upload_cases. simpl. rewrite Hmem.
  destruct (upload renv p); simpl; repeat split;
    auto using mem_without_same, mem_without_other.
Qed.

Lemma upload_deletes_the_local_file_witness :
  fst (uploadOnCloudinary Signup.office (Some "tmp/refused.png")
         ["tmp/refused.png"; "tmp/a1.png"])
  = Throw (LibError "Error" "Invalid image file")
  /\ mem "tmp/refused.png"
       (snd (uploadOnCloudinary Signup.office (Some "tmp/refused.png")
               ["tmp/refused.png"; "tmp/a1.png"])) = false.
Proof.
  destruct (upload_deletes_the_local_file Signup.office "tmp/refused.png"
              ["tmp/refused.png"; "tmp/a1.png"] eq_refl) as (H1 & H2 & _).
  split; assumption.
Defined.

(** ** White space *)

Lemma all_space_trimStart (s : string) :
  all_space (trimStart s) = all_space s.
Proof.
  induction s as [|c rest IH]; simpl; [reflexivity|].
  destruct (is_space c) eqn:E; simpl; [exact IH | now rewrite E].
Qed.

Lemma trimEnd_empty (s : string) :
  String.eqb (trimEnd s) "" = all_space s.
Proof.
  induction s as [|c rest IH]; simpl; [reflexivity|].
  rewrite IH. destruct (is_space c && all_space rest); reflexivity.
Qed.

(** A string trims to the empty string exactly when it holds nothing but
    white space. *)
Lemma trim_empty (s : string) : String.eqb (trim s) "" = all_space s.
Proof. unfold trim. now rewrite trimEnd_empty, all_space_trimStart. Qed.

Lemma toLowerCase_idempotent (s : string) :
  toLowerCase (toLowerCase s) = toLowerCase s.
Proof.
  induction s as [|c rest IH]; simpl; [reflexivity|]. rewrite IH. f_equal.
  destruct c as [[|] [|] [|] [|] [|] [|] [|] [|]]; reflexivity.
Qed.

(** ** Registration, case by case *)

Lemma create_cases (renv : RegEnv) (fullName : option string)
    (avatar coverImage : string) (email password : option string)
    (username : string) (st : Store) :
  create renv fullName avatar coverImage email password username st =
  match fullName, email, password with
  | Some f, Some e, Some p =>
      match reg_fault renv RegCreate with
      | Some err => (Throw err, st)
      | None =>
          match findOne st (Some username) (Some e) with
          | Some _ => (Throw (conflict_error renv), st)
          | None =>
              let user := mkUser (new_id renv st) username e f avatar
                                 coverImage (hash_password renv p) None in
              (Ok user, (st ++ [user])%list)
          end
      end
  | _, _, _ => (Throw (validation_error renv), st)
  end.
Proof.
  unfold create, raise.
  destruct fullName, email, password; reflexivity.
Qed.

Lemma register_cases (renv : RegEnv) (req : RegisterRequest) (s : Site) :
  registerUser renv req s =
  let st := site_users s in
  if existsb blank [reg_fullName req; reg_email req; reg_username req;
                    reg_password req]
  then (Throw (ApiError 400 "All fields are required"), s)
  else
    match reg_fault renv RegFindOne with
    | Some e => (Throw e, s)
    | None =>
        match findOne st (reg_username req) (reg_email req) with
        | Some _ =>
            (Throw (ApiError 409
                      "User with email or username already registered"), s)
        | None =>
            match avatarFiles req with
            | None | Some [] =>
                (Throw (ApiError 400 "Avatar file is required"), s)
            | Some (first :: _) =>
                match uploadOnCloudinary renv (Some (path first))
                        (site_disk s) with
                | (Throw e, d1) => (Throw e, mkSite st d1)
                | (Ok avatar, d1) =>
                    match uploadOnCloudinary renv (coverImageLocalPath req)
                            d1 with
                    | (Throw e, d2) => (Throw e, mkSite st d2)
                    | (Ok coverImage, d2) =>
                        match avatar with
                        | None =>
                            (Throw (ApiError 400 "Avatar file upload failed"),
                             mkSite st d2)
                        | Some _ =>
                            match lowered (reg_username req) with
                            | Throw e => (Throw e, mkSite st d2)
                            | Ok lower =>
                                match create renv (reg_fullName req)
                                        (url_or_empty avatar)
                                        (url_or_empty coverImage)
                                        (reg_email req) (reg_password req)
                                        lower st with
                                | (Throw e, st1) => (Throw e, mkSite st1 d2)
                                | (Ok user, st1) =>
                                    match reg_fault renv RegFindById with
                                    | Some e => (Throw e, mkSite st1 d2)
                                    | None =>
                                        match findById st1
                                                (Some (_id user)) with
                                        | None =>
                                            (Throw (ApiError 500
                                               "Error registering the user"),
                                             mkSite st1 d2)
                                        | Some u' =>
                                            (Ok (register_reply
                                                   (selected
                                                      "-password -refreshToken"
                                                      (Some u'))),
                                             mkSite st1 d2)
                                        end
                                    end
                                end
                            end
                        end
                    end
                end
            end
        end
    end.
Proof.
  unfold registerUser. cbv zeta. destruct s as [st disk].
  cbn [site_users site_disk].
  destruct (existsb blank _); [reflexivity|].
  unfold then_, on_store, on_disk, reg_db, raise, unit_, sync.
  cbn [site_users site_disk].
  destruct (reg_fault renv RegFindOne); [reflexivity|].
  destruct (findOne st _ _); [reflexivity|].
  destruct (avatarFiles req) as [[|first more]|]; try reflexivity.
  cbv beta iota; cbn [site_users site_disk].
  destruct (uploadOnCloudinary renv (Some (path first)) disk)
    as [[avatar|e] d1]; [|reflexivity].
  cbv beta iota; cbn [site_users site_disk].
  destruct (uploadOnCloudinary renv (coverImageLocalPath req) d1)
    as [[coverImage|e] d2]; [|reflexivity].
  destruct avatar as [av|]; [|reflexivity].
  cbv beta iota; cbn [site_users site_disk].
  destruct (lowered (reg_username req)) as [lower|e]; [|reflexivity].
  cbv beta iota; cbn [site_users site_disk].
  destruct (create renv _ _ _ _ _ lower st) as [[user|e] st1]; [|reflexivity].
  cbv beta iota; cbn [site_users site_disk].
  destruct (reg_fault renv RegFindById); [reflexivity|].
  destruct (findById st1 (Some (_id user))); reflexivity.
Qed.

Lemma findById_app_new (st : Store) (u : User) :
  findById st (Some (_id u)) = None ->
  findById (st ++ [u])%list (Some (_id u)) = Some u.
Proof.
  induction st as [|d rest IH]; simpl.
  - now rewrite String.eqb_refl.
  - destruct (String.eqb (_id d) (_id u)); [discriminate | exact IH].
Qed.

Lemma findOne_app (st : Store) (u : User) (a b : option string) :
  findOne (st ++ [u])%list a b =
  match findOne st a b with
  | Some x => Some x
  | None =>
      if field_matches a (username u) || field_matches b (email u)
      then Some u else None
  end.
Proof.
  induction st as [|d rest IH]; simpl; [reflexivity|].
  destruct (field_matches a (username d) || field_matches b (email d));
    [reflexivity | exact IH].
Qed.

(** An upload never puts a file on the disk. *)
Lemma upload_adds_no_file (renv : RegEnv) (p : option string) (disk : Disk)
    (q : string) :
  mem q disk = false ->
  mem q (snd (uploadOnCloudinary renv p disk)) = false.
Proof.
  intros H. rewrite upload_cases.
  assert (Hw : mem q (without (text_of p) disk) = false).
  { unfold mem, without in *. induction disk as [|d rest IH]; [reflexivity|].
    simpl in *. apply orb_false_iff in H. destruct H as [Hd Hrest].
    destruct (negb (String.eqb d (text_of p))); simpl; [rewrite Hd|]; auto. }
  destruct (existsSync p disk); [|exact H].
  now destruct (upload renv (text_of p)).
Qed.

(** X11.  A registration in which the full name, the email, the username or
    the password is a string of nothing but white space (the empty string
    included) is refused with 400 "All fields are required" before anything
    else happens: no lookup, no upload, and the files the upload middleware
    wrote stay on the disk. *)
Theorem register_rejects_blank_fields
    (renv : RegEnv) (req : RegisterRequest) (s : Site) (t : string) :
  In (Some t) [reg_fullName req; reg_email req; reg_username req;
               reg_password req] ->
  all_space t = true ->
  registerUser renv req s
  = (Throw (ApiError 400 "All fields are required"), s).
Proof.
  intros Hin Hblank. rewrite register_cases. cbv zeta.
  assert (H : existsb blank [reg_fullName req; reg_email req;
                             reg_username req; reg_password req] = true).
  { apply existsb_exists. exists (Some t). split; [exact Hin|].
    simpl. now rewrite trim_empty. }
  now rewrite H.
Qed.

Lemma register_rejects_blank_fields_witness :
  registerUser Signup.office
    (mkRegisterRequest (Some "Dan") (Some "dan@example.org") (Some "   ")
       (Some "pw") None) Signup.site
  = (Throw (ApiError 400 "All fields are required"), Signup.site).
Proof.
  refine (register_rejects_blank_fields Signup.office _ Signup.site "   "
            _ eq_refl).
  simpl. auto.
Defined.

(** X12.  A registration with no username at all is not refused as a bad
    request.  It passes the check of the fields and the lookup, its avatar
    (and cover image) are uploaded to the media host and deleted locally,
    and only then does it fail, with the [TypeError] of calling
    [toLowerCase] on [undefined]; no user is created. *)
Theorem register_without_username_fails_after_upload
    (renv : RegEnv) (req : RegisterRequest) (st : Store) (disk d2 : Disk)
    (first : UploadedFile) (more : list UploadedFile)
    (av : CloudResponse) (cover : option CloudResponse) :
  reg_username req = None ->
  existsb blank [reg_fullName req; reg_email req; reg_password req] = false ->
  reg_fault renv RegFindOne = None ->
  findOne st None (reg_email req) = None ->
  avatarFiles req = Some (first :: more) ->
  mem (path first) disk = true ->
  upload renv (path first) = Ok av ->
  uploadOnCloudinary renv (coverImageLocalPath req)
    (without (path first) disk) = (Ok cover, d2) ->
  registerUser renv req (mkSite st disk)
  = (Throw (LibError "TypeError"
              "Cannot read properties of undefined (reading 'toLowerCase')"),
     mkSite st d2)
  /\ mem (path first) d2 = false.
Proof.
  intros Hun Hblank Hdb Hnone Hav Hmem Hup Hcover.
  split.
  - rewrite register_cases. cbv zeta. cbn [site_users site_disk].
    rewrite Hun, Hdb, Hnone, Hav.
    simpl in Hblank. apply orb_false_iff in Hblank.
    destruct Hblank as [Hf Hrest]. apply orb_false_iff in Hrest.
    destruct Hrest as [He Hrest]. apply orb_false_iff in Hrest.
    destruct Hrest as [Hp _].
    cbn [existsb blank]. rewrite Hf, He, Hp. cbn [orb].
    rewrite upload_cases. cbn [existsSync text_of]. rewrite Hmem, Hup, Hcover.
    reflexivity.
  - pose proof (upload_adds_no_file renv (coverImageLocalPath req)
                  (without (path first) disk) (path first)
                  (mem_without_same _ _)) as H.
    now rewrite Hcover in H.
Qed.

Lemma register_without_username_fails_after_upload_witness :
  registerUser Signup.office
    (mkRegisterRequest (Some "Dan") (Some "dan@example.org") None (Some "pw")
       (Some (mkFiles (Some [mkFile "tmp/a1.png"]) None)))
    Signup.site
  = (Throw (LibError "TypeError"
              "Cannot read properties of undefined (reading 'toLowerCase')"),
     mkSite World.users ["tmp/c1.png"; "tmp/other.bin"]).
Proof.
  exact (proj1 (register_without_username_fails_after_upload
                  Signup.office
                  (mkRegisterRequest (Some "Dan") (Some "dan@example.org")
                     None (Some "pw")
                     (Some (mkFiles (Some [mkFile "tmp/a1.png"]) None)))
                  World.users ["tmp/a1.png"; "tmp/c1.png"; "tmp/other.bin"]
                  ["tmp/c1.png"; "tmp/other.bin"]
                  (mkFile "tmp/a1.png") []
                  (mkCloudResponse (Some "https://media.example/tmp/a1.png"))
                  None
                  eq_refl eq_refl eq_refl eq_refl eq_refl eq_refl eq_refl
                  eq_refl)).
Defined.

(** X13.  When the temporary file of the avatar is not on the disk, no user
    is created, and the reply is settled by what happens to the cover image,
    which is dealt with before the avatar is looked at.  Without a cover
    image on the disk the reply is 400 "Avatar file upload failed" and the
    disk is untouched.  A cover image on the disk is handed to the media
    host and deleted locally: if the host takes it the reply is the same
    400, and if the host refuses it the reply is the host's own error. *)
Theorem register_without_avatar_file_still_uploads_cover
    (renv : RegEnv) (req : RegisterRequest) (st : Store) (disk : Disk)
    (first : UploadedFile) (more : list UploadedFile) :
  existsb blank [reg_fullName req; reg_email req; reg_username req;
                 reg_password req] = false ->
  reg_fault renv RegFindOne = None ->
  findOne st (reg_username req) (reg_email req) = None ->
  avatarFiles req = Some (first :: more) ->
  mem (path first) disk = false ->
  registerUser renv req (mkSite st disk)
  = match coverImageLocalPath req with
    | Some pc =>
        if mem pc disk
        then match upload renv pc with
             | Ok _ =>
                 (Throw (ApiError 400 "Avatar file upload failed"),
                  mkSite st (without pc disk))
             | Throw e => (Throw e, mkSite st (without pc disk))
             end
        else (Throw (ApiError 400 "Avatar file upload failed"),
              mkSite st disk)
    | None =>
        (Throw (ApiError 400 "Avatar file upload failed"), mkSite st disk)
    end.
Proof.
  intros Hblank Hdb Hnone Hav Hmem.
  rewrite register_cases. cbv zeta. cbn [site_users site_disk].
  rewrite Hblank, Hdb, Hnone, Hav.
  rewrite upload_cases. cbn [existsSync text_of]. rewrite Hmem.
  rewrite upload_cases.
  destruct (coverImageLocalPath req) as [pc|]; cbn [existsSync text_of];
    [|reflexivity].
  destruct (mem pc disk); [|reflexivity].
  destruct (upload renv pc); reflexivity.
Qed.

Lemma register_without_avatar_file_still_uploads_cover_witness :
  registerUser Signup.office Signup.carol
    (mkSite World.users ["tmp/c1.png"; "tmp/other.bin"])
  = (Throw (ApiError 400 "Avatar file upload failed"),
     mkSite World.users ["tmp/other.bin"]).
Proof.
  exact (register_without_avatar_file_still_uploads_cover
           Signup.office Signup.carol World.users
           ["tmp/c1.png"; "tmp/other.bin"] (mkFile "tmp/a1.png") []
           eq_refl eq_refl eq_refl eq_refl eq_refl).
Defined.

Lemma findOne_without_email (st : Store) (a b : option string) :
  findOne st a b = None -> findOne st a None = None.
Proof.
  induction st as [|d rest IH]; simpl; [reflexivity|].
  destruct (field_matches a (username d)); simpl; [discriminate|].
  destruct (field_matches b (email d)); [discriminate | exact IH].
Qed.

Section Registered.

Variables (renv : RegEnv) (req : RegisterRequest) (st : Store)
          (disk d2 : Disk) (first : UploadedFile) (more : list UploadedFile)
          (av : CloudResponse) (cover : option CloudResponse)
          (fn em un pw : string).

Hypothesis has_fullName : reg_fullName req = Some fn.
Hypothesis has_email : reg_email req = Some em.
Hypothesis has_username : reg_username req = Some un.
Hypothesis has_password : reg_password req = Some pw.
Hypothesis none_blank :
  existsb blank [Some fn; Some em; Some un; Some pw] = false.
Hypothesis answering : forall place, reg_fault renv place = None.
Hypothesis unknown : findOne st (Some un) (Some em) = None.
Hypothesis not_taken : findOne st (Some (toLowerCase un)) (Some em) = None.
Hypothesis has_avatar : avatarFiles req = Some (first :: more).
Hypothesis avatar_on_disk : mem (path first) disk = true.
Hypothesis avatar_hosted : upload renv (path first) = Ok av.
Hypothesis cover_done :
  uploadOnCloudinary renv (coverImageLocalPath req)
    (without (path first) disk) = (Ok cover, d2).
Hypothesis fresh_id : findById st (Some (new_id renv st)) = None.

(** The document a registration creates. *)
Let user : User :=
  mkUser (new_id renv st) (toLowerCase un) em fn (url_or_empty (Some av))
         (url_or_empty cover) (hash_password renv pw) None.

Lemma register_creates :
  registerUser renv req (mkSite st disk)
  = (Ok (register_reply
           (JObj (select "-password -refreshToken" (toObject user)))),
     mkSite (st ++ [user])%list d2).
Proof.
  rewrite register_cases. cbv zeta. cbn [site_users site_disk].
  rewrite has_fullName, has_email, has_username, has_password, none_blank.
  rewrite answering, unknown, has_avatar.
  rewrite upload_cases. cbn [existsSync text_of].
  rewrite avatar_on_disk, avatar_hosted, cover_done.
  cbn [lowered]. rewrite create_cases, !answering, not_taken. cbv zeta.
  fold user. cbv beta iota.
  now rewrite (findById_app_new st user fresh_id).
Qed.

(** X14.  Take a registration with all four fields, none of them blank,
    whose typed username, lower-cased username and email no stored user
    has; whose avatar is on the disk and taken by the media host; whose
    cover image, if any, is dealt with without an error; and a database
    that answers and hands out an unused [_id].  It appends exactly one
    document: the username in lower case, the password as its hash, avatar
    and cover image as the URLs the host returned (the empty string without
    a cover image), no refresh token.  The reply has HTTP status 201 while
    its envelope says 200; the user it shows has no [password] and no
    [refreshToken] key and carries the lower-cased username and the email.
    The avatar's temporary file is gone. *)
Theorem register_success :
  let reply := fst (registerUser renv req (mkSite st disk)) in
  let after := snd (registerUser renv req (mkSite st disk)) in
  site_users after = (st ++ [user])%list
  /\ site_disk after = d2
  /\ mem (path first) d2 = false
  /\ exists resp view,
       reply = Ok resp /\
       status resp = 201 /\
       option_map statusCode (json resp) = Some 200 /\
       option_map data (json resp) = Some (JObj view) /\
       has_key "password" view = false /\
       has_key "refreshToken" view = false /\
       prop "_id" view = JStr (new_id renv st) /\
       prop "username" view = JStr (toLowerCase un) /\
       prop "email" view = JStr em.
Proof.
  cbv zeta. rewrite register_creates. cbn [fst snd site_users site_disk].
  repeat split.
  - pose proof (upload_adds_no_file renv (coverImageLocalPath req)
                  (without (path first) disk) (path first)
                  (mem_without_same _ _)) as H.
    now rewrite cover_done in H.
  - eexists. eexists. rewrite select_drops_secrets. repeat split.
Qed.

Variables (env : Env) (a r : string).

Hypothesis db_answering : forall place, db_fault env place = None.
Hypothesis password_accepted : isPassWordCorrect env user (Some pw) = Ok true.
Hypothesis access_minted : generateAccessToken env user = Ok a.
Hypothesis refresh_minted : generateRefreshToken env user = Ok r.

(** X16.  After such a registration, a login with the stored, lower-case
    username and the password succeeds, provided the password verifier
    accepts the password for the new document, the tokens can be minted and
    the database answers.  The reply carries the two minted tokens and shows
    the new user, lower-cased username and email, without [password] and
    [refreshToken]; the minted refresh token is stored on the new
    document. *)
Theorem register_then_login :
  let after := site_users (snd (registerUser renv req (mkSite st disk))) in
  exists resp st' view,
    loginuser env (mkLoginRequest (Some (toLowerCase un)) None (Some pw))
      after = (Ok resp, st') /\
    body_field "user" resp = JObj view /\
    has_key "password" view = false /\
    has_key "refreshToken" view = false /\
    prop "_id" view = JStr (new_id renv st) /\
    prop "username" view = JStr (toLowerCase un) /\
    prop "email" view = JStr em /\
    body_field "accessToken" resp = JStr a /\
    body_field "refreshToken" resp = JStr r /\
    findById st' (Some (new_id renv st))
    = Some (set_refreshToken user (Some r)).
Proof.
  cbv zeta. rewrite register_creates. cbn [snd site_users].
  assert (Hnonempty : truthy (Some (toLowerCase un)) = true).
  { simpl in none_blank. apply orb_false_iff in none_blank.
    destruct none_blank as [_ H]. apply orb_false_iff in H.
    destruct H as [_ H]. apply orb_false_iff in H. destruct H as [H _].
    rewrite trim_empty in H. destruct un as [|c rest]; [discriminate|].
    reflexivity. }
  assert (Hfound : findById (st ++ [user])%list (Some (_id user)) = Some user).
  { exact (findById_app_new st user fresh_id). }
  eexists. eexists. eexists. split.
  - rewrite login_cases.
    cbn [body_username body_email body_password].
    rewrite Hnonempty. cbn [orb negb].
    rewrite db_answering, findOne_app.
    rewrite (findOne_without_email st _ _ not_taken).
    cbn [field_matches username user]. rewrite String.eqb_refl. cbn [orb].
    rewrite password_accepted, generate_cases, !db_answering, Hfound.
    rewrite access_minted, refresh_minted.
    rewrite (findById_save _ _ (Some r) Hfound).
    unfold selected. rewrite select_drops_secrets. reflexivity.
  - repeat split.
    exact (findById_save _ _ (Some r) Hfound).
Qed.

End Registered.

Lemma register_success_witness :
  site_users (snd (registerUser Signup.office Signup.carol Signup.site))
  = (World.users
     ++ [mkUser "new-ii" "carol" "carol@example.org" "Carol C"
           "https://media.example/tmp/a1.png"
           "https://media.example/tmp/c1.png" "hash:s3cret" None])%list.
Proof.
  exact (proj1 (register_success Signup.office Signup.carol World.users
                  ["tmp/a1.png"; "tmp/c1.png"; "tmp/other.bin"]
                  ["tmp/other.bin"] (mkFile "tmp/a1.png") []
                  (mkCloudResponse (Some "https://media.example/tmp/a1.png"))
                  (Some (mkCloudResponse
                           (Some "https://media.example/tmp/c1.png")))
                  "Carol C" "carol@example.org" "Carol" "s3cret"
                  eq_refl eq_refl eq_refl eq_refl eq_refl (fun _ => eq_refl)
                  eq_refl eq_refl eq_refl eq_refl eq_refl eq_refl eq_refl)).
Defined.

Lemma register_then_login_witness :
  exists resp st',
    loginuser (World.at_ "at-100")
      (mkLoginRequest (Some "carol") None (Some "s3cret"))
      (site_users (snd (registerUser Signup.office Signup.carol Signup.site)))
    = (Ok resp, st')
    /\ body_field "refreshToken" resp = JStr "R.new-ii.at-100".
Proof.
  destruct (register_then_login Signup.office Signup.carol World.users
              ["tmp/a1.png"; "tmp/c1.png"; "tmp/other.bin"]
              ["tmp/other.bin"] (mkFile "tmp/a1.png") []
              (mkCloudResponse (Some "https://media.example/tmp/a1.png"))
              (Some (mkCloudResponse
                       (Some "https://media.example/tmp/c1.png")))
              "Carol C" "carol@example.org" "Carol" "s3cret"
              eq_refl eq_refl eq_refl eq_refl eq_refl (fun _ => eq_refl)
              eq_refl eq_refl eq_refl eq_refl eq_refl eq_refl eq_refl
              (World.at_ "at-100") "A.new-ii.at-100" "R.new-ii.at-100"
              (fun _ => eq_refl) eq_refl eq_refl eq_refl)
    as (resp & st' & view & Hlogin & _ & _ & _ & _ & _ & _ & _ & Hr & _).
  exists resp, st'. split; assumption.
Defined.

(** X17.  A registration that fails has created no user, with one
    exception: when the lookup that follows the insert is rejected by the
    database or finds nothing (500 "Error registering the user"), the
    document has already been inserted. *)
Theorem register_failure_and_the_store
    (renv : RegEnv) (req : RegisterRequest) (s s' : Site) (e : JsError) :
  registerUser renv req s = (Throw e, s') ->
  site_users s' = site_users s
  \/ exists user,
       site_users s' = (site_users s ++ [user])%list /\
       (reg_fault renv RegFindById = Some e
        \/ e = ApiError 500 "Error registering the user").
Proof.
  rewrite register_cases. cbv zeta.
  destruct (existsb blank _); [intros [= <- <-]; now left|].
  destruct (reg_fault renv RegFindOne); [intros [= <- <-]; now left|].
  destruct (findOne _ _ _); [intros [= <- <-]; now left|].
  destruct (avatarFiles req) as [[|first more]|];
    try (intros [= <- <-]; now left).
  destruct (uploadOnCloudinary renv (Some (path first)) (site_disk s))
    as [[avatar|e1] d1]; [|intros [= <- <-]; now left].
  destruct (uploadOnCloudinary renv (coverImageLocalPath req) d1)
    as [[coverImage|e2] d2]; [|intros [= <- <-]; now left].
  destruct avatar as [av|]; [|intros [= <- <-]; now left].
  destruct (lowered (reg_username req)) as [lower|e3];
    [|intros [= <- <-]; now left].
  rewrite create_cases.
  destruct (reg_fullName req) as [f|]; [|intros [= <- <-]; now left].
  destruct (reg_email req) as [m|]; [|intros [= <- <-]; now left].
  destruct (reg_password req) as [p|]; [|intros [= <- <-]; now left].
  destruct (reg_fault renv RegCreate); [intros [= <- <-]; now left|].
  destruct (findOne (site_users s) (Some lower) (Some m));
    [intros [= <- <-]; now left|].
  cbv zeta.
  destruct (reg_fault renv RegFindById) eqn:Hdb.
  - intros [= <- <-]. right. eexists. split; [reflexivity | now left].
  - destruct (findById _ _); [discriminate|].
    intros [= <- <-]. right. eexists. split; [reflexivity | now right].
Qed.

Lemma register_failure_and_the_store_witness :
  site_users Signup.site = site_users Signup.site
  \/ exists user,
       site_users Signup.site = (site_users Signup.site ++ [user])%list /\
       (reg_fault Signup.office RegFindById
        = Some (ApiError 400 "Avatar file is required")
        \/ ApiError 400 "Avatar file is required"
           = ApiError 500 "Error registering the user").
Proof.
  exact (register_failure_and_the_store Signup.office Signup.nothing
           Signup.site Signup.site (ApiError 400 "Avatar file is required")
           eq_refl).
Defined.
